(** * PlotJuggler plugins: the video viewer synchroniser and the rule editor

    A shallow embedding of
    - [plotjuggler_plugins/VideoViewer/video_viewer.cpp] (class
      [PublisherVideo]: [updateState], [play], [xmlSaveState],
      [xmlLoadState], [setEnabled], [commaLoadVideoFromEnvironment]);
    - the rule editing dialog ([RuleEditing::isValidXml]).

    C++ [double] values are idealised as exact rationals ([Qc], whose
    equality is Leibniz equality), with a binary64 copy of the sampler
    beside it; [QString] and [QByteArray] are [string];
    [std::unordered_map<std::string, PlotData>] and the [QSettings] store are
    [gmap string _]; the Qt DOM is an inductive tree. *)

From Stdlib Require Import QArith Qcanon Floats.
From stdpp Require Import gmap strings list fin_maps numbers.

Local Open Scope Qc_scope.

(** ** Numbers *)

Abbreviation double := Qc (only parsing).

(** ** Time series *)

Module PlotData.

(** A sample: [(x, y)] is (timestamp, value). *)
Abbreviation Point := (double * double)%type (only parsing).

Abbreviation PlotData := (list Point) (only parsing).

(** Modelled from the spec: the invariant of a series in the data model,
    timestamps never decrease from one sample to the next. *)
Fixpoint time_ordered (s : PlotData) : bool :=
  match s with
  | [] => true
  | p :: rest =>
      match rest with
      | [] => true
      | q :: _ => bool_decide (fst p ≤ fst q) && time_ordered rest
      end
  end.

(** Modelled from the spec: the value at [t] on the segment through the
    samples [p] and [q], [v0 + (v1 - v0) * (t - t0) / (t1 - t0)]. *)
Definition lerp (p q : Point) (t : double) : double :=
  snd p + (snd q - snd p) * (t - fst p) / (fst q - fst p).

(** Modelled from the spec: the two bracketing samples are found by walking
    along the series to the first sample [q] with [t ≤ fst q]; [p] is the
    sample before it. A query time that matches the timestamp of [q] yields
    the value of [q] as it is (no arithmetic, hence no interpolation
    error); otherwise the value is interpolated between [p] and [q]. *)
Fixpoint interpolate (p : Point) (rest : list Point) (t : double) : double :=
  match rest with
  | [] => snd p
  | q :: rest' =>
      if bool_decide (t ≤ fst q) then
        if bool_decide (fst q ≤ t) then snd q else lerp p q t
      else interpolate q rest' t
  end.

(** Modelled from the spec: [PlotData::getYfromX] (declared in the
    PlotJuggler base headers, which are not part of the sources at hand).
    An empty series yields no value; a query time before the first sample
    (or on it) yields the first value and one after the last sample the last
    value (clamping, no extrapolation); in between, the value is that of the
    sample whose timestamp matches, or the linear interpolation of the two
    bracketing samples. *)
Definition getYfromX (s : PlotData) (t : double) : option double :=
  match s with
  | [] => None
  | p :: rest =>
      Some (if bool_decide (t ≤ fst p) then snd p
            else if bool_decide (fst (List.last rest p) < t)
                 then snd (List.last rest p)
                 else interpolate p rest t)
  end.

End PlotData.

Import PlotData.

(** The same sampler on IEEE binary64 numbers (Rocq's primitive floats),
    operation for operation, to tell what depends on the arithmetic being
    exact and what does not. *)
Module Binary64.

Abbreviation Point := (float * float)%type (only parsing).

Fixpoint time_ordered (s : list Point) : bool :=
  match s with
  | [] => true
  | p :: rest =>
      match rest with
      | [] => true
      | q :: _ => PrimFloat.leb (fst p) (fst q) && time_ordered rest
      end
  end.

Definition lerp (p q : Point) (t : float) : float :=
  (snd p + (snd q - snd p) * (t - fst p) / (fst q - fst p))%float.

Fixpoint interpolate (p : Point) (rest : list Point) (t : float) : float :=
  match rest with
  | [] => snd p
  | q :: rest' =>
      if PrimFloat.leb t (fst q) then
        if PrimFloat.leb (fst q) t then snd q else lerp p q t
      else interpolate q rest' t
  end.

(** Modelled from the spec: [PlotData::getYfromX], as above, in binary64. *)
Definition getYfromX (s : list Point) (t : float) : option float :=
  match s with
  | [] => None
  | p :: rest =>
      Some (if PrimFloat.leb t (fst p) then snd p
            else if PrimFloat.ltb (fst (List.last rest p)) t
                 then snd (List.last rest p)
                 else interpolate p rest t)
  end.

End Binary64.

(** ** Qt's DOM

    Only what the two translation units use: elements with a tag name, an
    attribute map and child nodes; the other node kinds that a parsed
    document can hold and that the element iterators skip. *)

Module QDom.

Inductive QDomElement : Type :=
| mkQDomElement (tag : string) (attrs : gmap string string)
                (children : list QDomNode)
with QDomNode : Type :=
| ElementNode (e : QDomElement)
| TextNode (data : string)
| CommentNode (data : string)
| ProcessingInstructionNode (target data : string).

Definition tagName (e : QDomElement) : string :=
  match e with mkQDomElement tag _ _ => tag end.

Definition attributes (e : QDomElement) : gmap string string :=
  match e with mkQDomElement _ attrs _ => attrs end.

Definition childNodes (e : QDomElement) : list QDomNode :=
  match e with mkQDomElement _ _ children => children end.

(** [QDomNode::nodeName()]: tag name of an element, target of a processing
    instruction, a fixed name for the other kinds. *)
Definition nodeName (n : QDomNode) : string :=
  match n with
  | ElementNode e => tagName e
  | TextNode _ => "#text"
  | CommentNode _ => "#comment"
  | ProcessingInstructionNode target _ => target
  end.

(** [QDomNode::toElement()]; [None] is the null element. *)
Definition toElement (n : QDomNode) : option QDomElement :=
  match n with
  | ElementNode e => Some e
  | _ => None
  end.

(** [QDomNode::namedItem(name)] on a list of children: the first direct
    child whose node name is [name], of whatever kind. *)
Fixpoint namedItem (name : string) (children : list QDomNode)
  : option QDomNode :=
  match children with
  | [] => None
  | n :: rest =>
      if bool_decide (nodeName n = name) then Some n
      else namedItem name rest
  end.

(** [QDomNode::firstChildElement(tagName)] on a list of children: the first
    child that is an element and, when [tag] is not empty, has that tag. *)
Fixpoint firstElement (tag : string) (children : list QDomNode)
  : option QDomElement :=
  match children with
  | [] => None
  | ElementNode e :: rest =>
      if bool_decide (tag = "") || bool_decide (tagName e = tag)
      then Some e else firstElement tag rest
  | _ :: rest => firstElement tag rest
  end.

Definition firstChildElement (tag : string) (parent : QDomElement)
  : option QDomElement :=
  firstElement tag (childNodes parent).

(** The elements among some children, in document order: what a loop
    [for (el = firstChildElement(); !el.isNull(); el = el.nextSiblingElement())]
    visits. *)
Fixpoint childElements (children : list QDomNode) : list QDomElement :=
  match children with
  | [] => []
  | ElementNode e :: rest => e :: childElements rest
  | _ :: rest => childElements rest
  end.

Definition hasAttribute (name : string) (e : QDomElement) : bool :=
  bool_decide (is_Some (attributes e !! name)).

(** [QDomElement::attribute(name)], with the default default value. *)
Definition attribute (name : string) (e : QDomElement) : string :=
  default "" (attributes e !! name).

Definition setAttribute (name value : string) (e : QDomElement)
  : QDomElement :=
  mkQDomElement (tagName e) (<[name := value]> (attributes e)) (childNodes e).

Definition appendChild (child : QDomElement) (parent : QDomElement)
  : QDomElement :=
  mkQDomElement (tagName parent) (attributes parent)
                (childNodes parent ++ [ElementNode child]).

(** [QDomDocument::createElement(tag)]. *)
Definition createElement (tag : string) : QDomElement :=
  mkQDomElement tag ∅ [].

(** A document is the list of its top-level nodes. *)
Definition QDomDocument : Type := list QDomNode.

(** [QDomDocument::documentElement()]: the root element. *)
Definition documentElement (doc : QDomDocument) : option QDomElement :=
  firstElement "" doc.

(** What the XML grammar admits at the top level of a document: one
    element, and around it only comments and processing instructions. *)
Definition top_level_ok (n : QDomNode) : bool :=
  match n with
  | TextNode _ => false
  | _ => true
  end.

Definition well_formed (doc : QDomDocument) : bool :=
  forallb top_level_ok doc && bool_decide (length (childElements doc) = 1%nat).

End QDom.

Import QDom.

(** ** The video dialog *)

Module Dialog.

(** Modelled from the spec: class [VideoDialog] and its form (the dialog's
    header, implementation and ui file are not part of the sources at
    hand). It is the dependent media driver: a stream that is paused or
    playing, the position last sought, the two line edits
    ([lineFilename]: media source path, [lineEditReference]: name of the
    reference series), the two radio buttons and the window state. *)
Record VideoDialog : Type := mkVideoDialog {
  hidden : bool;
  paused : bool;
  seek_value : option double;
  lineFilename : string;
  lineEditReference : string;
  radioButtonFrame : bool;
  radioButtonTime : bool;
  geometry : string }.

(** [QWidget::isHidden()]. *)
Definition isHidden (d : VideoDialog) : bool := hidden d.

(** Modelled from the spec: [VideoDialog::isPaused()] tells whether the
    stream is in the paused state. *)
Definition isPaused (d : VideoDialog) : bool := paused d.

(** Modelled from the spec: [VideoDialog::referenceCurve()], the selected
    series name, is the text of [lineEditReference]. *)
Definition referenceCurve (d : VideoDialog) : string := lineEditReference d.

(** Modelled from the spec: [VideoDialog::pause(bool)] puts the stream in
    the paused (or playing) state reported by [isPaused]. *)
Definition pause (b : bool) (d : VideoDialog) : VideoDialog :=
  mkVideoDialog (hidden d) b (seek_value d) (lineFilename d)
    (lineEditReference d) (radioButtonFrame d) (radioButtonTime d)
    (geometry d).

(** Modelled from the spec: [VideoDialog::seekByValue(double)] positions
    the stream at the given value. *)
Definition seekByValue (v : double) (d : VideoDialog) : VideoDialog :=
  mkVideoDialog (hidden d) (paused d) (Some v) (lineFilename d)
    (lineEditReference d) (radioButtonFrame d) (radioButtonTime d)
    (geometry d).

(** Modelled from the spec: [VideoDialog::loadFile(QString)] makes the
    given path the media source, shown in [lineFilename]. *)
Definition loadFile (filename : string) (d : VideoDialog) : VideoDialog :=
  mkVideoDialog (hidden d) (paused d) (seek_value d) filename
    (lineEditReference d) (radioButtonFrame d) (radioButtonTime d)
    (geometry d).

(** [ui->lineEditReference->setText(text)]. *)
Definition setReference (text : string) (d : VideoDialog) : VideoDialog :=
  mkVideoDialog (hidden d) (paused d) (seek_value d) (lineFilename d)
    text (radioButtonFrame d) (radioButtonTime d) (geometry d).

(** [ui->radioButtonFrame->setChecked(true)]: radio buttons of one group
    are exclusive, checking one unchecks the other. *)
Definition checkFrame (d : VideoDialog) : VideoDialog :=
  mkVideoDialog (hidden d) (paused d) (seek_value d) (lineFilename d)
    (lineEditReference d) true false (geometry d).

(** [ui->radioButtonTime->setChecked(true)]. *)
Definition checkTime (d : VideoDialog) : VideoDialog :=
  mkVideoDialog (hidden d) (paused d) (seek_value d) (lineFilename d)
    (lineEditReference d) false true (geometry d).

(** [QWidget::show()] and [QWidget::hide()]. *)
Definition setHidden (b : bool) (d : VideoDialog) : VideoDialog :=
  mkVideoDialog b (paused d) (seek_value d) (lineFilename d)
    (lineEditReference d) (radioButtonFrame d) (radioButtonTime d)
    (geometry d).

Definition saveGeometry (d : VideoDialog) : string := geometry d.

(** [QWidget::restoreGeometry(bytes)]: an empty array restores nothing. *)
Definition restoreGeometry (g : string) (d : VideoDialog) : VideoDialog :=
  if bool_decide (g = "") then d
  else mkVideoDialog (hidden d) (paused d) (seek_value d) (lineFilename d)
         (lineEditReference d) (radioButtonFrame d) (radioButtonTime d) g.

End Dialog.

Import Dialog.

(** ** The plugin object and the world around it *)

(** The members of [PublisherVideo] that the methods use. *)
Record PublisherVideo : Type := mkPublisherVideo {
  _dialog : VideoDialog;
  _datamap : gmap string PlotData;
  _xml_loaded : bool }.

(** Calls on the collaborators, in the order they are made: the series
    repository ([find], [getYfromX]), the actuators of the dialog, and the
    standard output. *)
Inductive Call : Type :=
| CallFind (name : string)
| CallGetYfromX (name : string) (t : double)
| CallPause (b : bool)
| CallSeekByValue (v : double)
| CallLoadFile (filename : string)
| CallRestoreGeometry (g : string)
| CallShow
| CallHide
| CallPrintf (text : string).

(** Process-wide state: the application's [QSettings] store (every
    default-constructed [QSettings] object reads and writes the same one),
    the environment variables, what the file system answers. *)
Record World : Type := mkWorld {
  self : PublisherVideo;
  settings : gmap string string;
  environ : gmap string string;
  currentPath : string;
  absolutePath : string → string;
  calls : list Call }.

Inductive Exn : Type :=
| bad_optional_access.

Inductive Result (A : Type) : Type :=
| Normal (a : A) (w : World)
| Throws (e : Exn) (w : World).
Arguments Normal {A} a w.
Arguments Throws {A} e w.

(** Methods are state transformers that may throw. *)
Definition M (A : Type) : Type := World → Result A.

#[global] Instance M_ret : MRet M := λ A a w, Normal a w.

#[global] Instance M_bind : MBind M := λ A B f m w,
  match m w with
  | Normal a w' => f a w'
  | Throws e w' => Throws e w'
  end.

Definition throw {A} (e : Exn) : M A := λ w, Throws e w.

Definition get_self : M PublisherVideo := λ w, Normal (self w) w.

Definition put_self (p : PublisherVideo) : M unit := λ w,
  Normal tt (mkWorld p (settings w) (environ w) (currentPath w)
               (absolutePath w) (calls w)).

Definition call (c : Call) : M unit := λ w,
  Normal tt (mkWorld (self w) (settings w) (environ w) (currentPath w)
               (absolutePath w) (calls w ++ [c])).

Definition get_dialog : M VideoDialog :=
  p ← get_self; mret (_dialog p).

Definition modify_dialog (f : VideoDialog → VideoDialog) : M unit :=
  p ← get_self;
  put_self (mkPublisherVideo (f (_dialog p)) (_datamap p) (_xml_loaded p)).

Definition set_xml_loaded (b : bool) : M unit :=
  p ← get_self;
  put_self (mkPublisherVideo (_dialog p) (_datamap p) b).

(** [std::optional<T>::value()]. *)
Definition optional_value {A} (o : option A) : M A :=
  match o with
  | Some a => mret a
  | None => throw bad_optional_access
  end.

Module Settings.

(** [settings.value(key, defaultValue).toString()]. *)
Definition value (key default_value : string) : M string := λ w,
  Normal (default default_value (settings w !! key)) w.

(** [settings.setValue(key, value)]. *)
Definition setValue (key val : string) : M unit := λ w,
  Normal tt (mkWorld (self w) (<[key := val]> (settings w)) (environ w)
               (currentPath w) (absolutePath w) (calls w)).

End Settings.

(** [std::getenv(name)]; [None] is the null pointer. *)
Definition getenv (name : string) : M (option string) := λ w,
  Normal (environ w !! name) w.

(** [QFileInfo(filename).absolutePath()]. *)
Definition fileinfo_absolutePath (filename : string) : M string := λ w,
  Normal (absolutePath w filename) w.

Definition dir_currentPath : M string := λ w, Normal (currentPath w) w.

(** The calls on [_dialog] and on [_datamap], recorded as they are made. *)
Definition dialog_pause (b : bool) : M unit :=
  call (CallPause b);; modify_dialog (pause b).

Definition dialog_seekByValue (v : double) : M unit :=
  call (CallSeekByValue v);; modify_dialog (seekByValue v).

Definition dialog_loadFile (filename : string) : M unit :=
  call (CallLoadFile filename);; modify_dialog (loadFile filename).

Definition dialog_restoreGeometry (g : string) : M unit :=
  call (CallRestoreGeometry g);; modify_dialog (restoreGeometry g).

Definition dialog_show : M unit :=
  call CallShow;; modify_dialog (setHidden false).

Definition dialog_hide : M unit :=
  call CallHide;; modify_dialog (setHidden true).

Definition datamap_find (name : string) : M (option PlotData) :=
  call (CallFind name);;
  p ← get_self; mret (_datamap p !! name).

Definition data_getYfromX (name : string) (data : PlotData) (t : double)
  : M (option double) :=
  call (CallGetYfromX name t);; mret (getYfromX data t).

Definition printf (text : string) : M unit := call (CallPrintf text).

(** ** video_viewer.cpp *)

Definition newline : string := String (Ascii.ascii_of_nat 10) "".
Definition tab : string := String (Ascii.ascii_of_nat 9) "".

(** [PublisherVideo::updateState]. *)
Definition updateState (current_time : double) : M unit :=
  d ← get_dialog;
  if isHidden d then mret tt
  else
    let ref_curve := referenceCurve d in
    if bool_decide (ref_curve = "") then mret tt
    else
      it ← datamap_find ref_curve;
      match it with
      | None => mret tt
      | Some data =>
          position ← data_getYfromX ref_curve data current_time;
          if bool_decide (is_Some position) then
            d ← get_dialog;
            (if negb (isPaused d) then dialog_pause true else mret tt);;
            v ← optional_value position;
            dialog_seekByValue v
          else mret tt
      end.

(** [PublisherVideo::play]. *)
Definition play (current_time : double) : M unit :=
  updateState current_time.

(** [PublisherVideo::xmlSaveState]: the result and the parent element as the
    call leaves it. *)
Definition xmlSaveState (parent_element : QDomElement)
  : M (bool * QDomElement) :=
  d ← get_dialog;
  let config := createElement "config" in
  let config := setAttribute "video_file" (lineFilename d) config in
  let config := setAttribute "curve_name" (lineEditReference d) config in
  let config :=
    setAttribute "use_frame"
      (if radioButtonFrame d then "true" else "false") config in
  mret (true, appendChild config parent_element).

(** [PublisherVideo::xmlLoadState]. *)
Definition xmlLoadState (parent_element : QDomElement) : M bool :=
  match firstChildElement "config" parent_element with
  | None => mret false
  | Some config =>
      dialog_loadFile (attribute "video_file" config);;
      modify_dialog (setReference (attribute "curve_name" config));;
      (if bool_decide (attribute "use_frame" config = "true")
       then modify_dialog checkFrame
       else modify_dialog checkTime);;
      set_xml_loaded true;;
      mret true
  end.

(** [PublisherVideo::commaLoadVideoFromEnvironment]. *)
Definition commaLoadVideoFromEnvironment : M bool :=
  videoPath ← getenv "VIDEO_PATH";
  referenceCurve ← getenv "VIDEO_REFERENCE_CURVE";
  cwd ← dir_currentPath;
  directory_path ← Settings.value "VideoDialog.loadDirectory" cwd;
  match videoPath, referenceCurve with
  | Some filename, Some curve =>
      directory_path ← fileinfo_absolutePath filename;
      printf ("shitshityay2" +:+ newline);;
      printf (filename +:+ tab +:+ curve +:+ newline);;
      Settings.setValue "VideoDialog::loadDirectory" directory_path;;
      Settings.setValue "VideoDialog.loadDirectory" directory_path;;
      Settings.setValue "VideoDialog::video_file" filename;;
      Settings.setValue "VideoDialog::curve_name" curve;;
      Settings.setValue "VideoDialog.video_file" filename;;
      Settings.setValue "VideoDialog.curve_name" curve;;
      mret true
  | _, _ => mret false
  end.

(** [PublisherVideo::setEnabled]. *)
Definition setEnabled (enabled : bool) : M unit :=
  useCommaVideo ← commaLoadVideoFromEnvironment;
  if enabled then
    p ← get_self;
    (if negb (_xml_loaded p) || useCommaVideo then
       filename ← Settings.value "VideoDialog::video_file" "";
       d ← get_dialog;
       (if negb (bool_decide (filename = lineFilename d)) || useCommaVideo
        then dialog_loadFile filename else mret tt);;
       curve_name ← Settings.value "VideoDialog::curve_name" "";
       modify_dialog (setReference curve_name);;
       g ← Settings.value "VideoDialog::geometry" "";
       dialog_restoreGeometry g
     else mret tt);;
    dialog_show
  else
    d ← get_dialog;
    Settings.setValue "VideoDialog::video_file" (lineFilename d);;
    d ← get_dialog;
    Settings.setValue "VideoDialog::curve_name" (lineEditReference d);;
    d ← get_dialog;
    Settings.setValue "VideoDialog::geometry" (saveGeometry d);;
    dialog_hide.

(** Modelled from the spec: the [isActive()] predicate, the synchroniser is
    active when the dialog is shown and a reference series is selected. *)
Definition isActive (p : PublisherVideo) : bool :=
  negb (isHidden (_dialog p))
  && negb (bool_decide (referenceCurve (_dialog p) = "")).

(** ** The rule editor *)

Module RuleEditing.

(** What [domDocument.setContent(text, true, &errorStr, &errorLine,
    &errorColumn)] leaves: a parse error with its message, or the
    document. *)
Inductive ParseResult : Type :=
| ParseError (errorStr : string)
| Parsed (domDocument : QDomDocument).

(** The inner loop of [isValidXml] over the children of a [<RosType>]:
    the message of the first offending child element, if any. *)
Fixpoint rule_loop (nodes : list QDomNode) : option string :=
  match nodes with
  | [] => None
  | ElementNode rule_el :: rest =>
      if negb (bool_decide (tagName rule_el = "rule")) then
        Some "<RosType> must have children named <rule>"
      else if negb (hasAttribute "pattern" rule_el)
              || negb (hasAttribute "alias" rule_el)
              || negb (hasAttribute "substitution" rule_el) then
        Some "<rule> must have the attributes 'pattern', 'alias' and 'substitution'"
      else rule_loop rest
  | _ :: rest => rule_loop rest
  end.

(** The outer loop over the children of the root. *)
Fixpoint type_loop (nodes : list QDomNode) : option string :=
  match nodes with
  | [] => None
  | ElementNode type_el :: rest =>
      if negb (bool_decide (tagName type_el = "RosType")) then
        Some "<SubstitutionRules> must have children named <RosType>"
      else if negb (hasAttribute "name" type_el) then
        Some "node <RosType> must have the attribute [name]"
      else
        match rule_loop (childNodes type_el) with
        | Some errorStr => Some errorStr
        | None => type_loop rest
        end
  | _ :: rest => type_loop rest
  end.

(** [RuleEditing::isValidXml], on the parse of the editor's text: the
    result and the text it puts in [labelValidSyntax]. *)
Definition isValidXml (parsed : ParseResult) : bool * string :=
  match parsed with
  | ParseError errorStr => (false, "Invalid XML: " +:+ errorStr)
  | Parsed domDocument =>
      match namedItem "SubstitutionRules" domDocument ≫= toElement with
      | None =>
          (false, "Invalid: " +:+ "the root node should be <SubstitutionRules>")
      | Some root =>
          match type_loop (childNodes root) with
          | Some errorStr => (false, "Invalid: " +:+ errorStr)
          | None => (true, "Valid" +:+ "")
          end
      end
  end.

(** The validity condition in the words of the documentation: *)

Definition rule_ok (e : QDomElement) : bool :=
  bool_decide (tagName e = "rule")
  && hasAttribute "pattern" e && hasAttribute "alias" e
  && hasAttribute "substitution" e.

Definition type_ok (e : QDomElement) : bool :=
  bool_decide (tagName e = "RosType")
  && hasAttribute "name" e
  && forallb rule_ok (childElements (childNodes e)).

(** the text parses, the root element of the document is named
    [SubstitutionRules], its child elements are [RosType]s with a [name]
    and their child elements are [rule]s with the three attributes. *)
Definition valid_rules_spec (parsed : ParseResult) : bool :=
  match parsed with
  | ParseError _ => false
  | Parsed domDocument =>
      match documentElement domDocument with
      | None => false
      | Some root =>
          bool_decide (tagName root = "SubstitutionRules")
          && forallb type_ok (childElements (childNodes root))
      end
  end.

End RuleEditing.

(** The calls that act on the dialog or print; the others only read the
    series repository. *)
Definition is_actuator (c : Call) : bool :=
  match c with
  | CallFind _ | CallGetYfromX _ _ => false
  | _ => true
  end.

(** ** The rule editing dialog: buttons, timer and stored text *)

Module RuleEditingDialog.

Import RuleEditing.

Definition quote : string := String (Ascii.ascii_of_nat 34) "".

(** One [<rule .../>] line of [DEFAULT]; [pad] is the blank run after the
    pattern. *)
Definition default_rule (pattern pad substitution : string) : string :=
  "  <rule pattern=" +:+ quote +:+ pattern +:+ quote +:+ pad
  +:+ "alias=" +:+ quote +:+ "name.#" +:+ quote
  +:+ " substitution=" +:+ quote +:+ substitution +:+ quote
  +:+ " timestamp=" +:+ quote +:+ "header.stamp" +:+ quote
  +:+ "/>" +:+ newline.

(** The constant [DEFAULT]. *)
Definition DEFAULT : string :=
  "<SubstitutionRules>" +:+ newline
  +:+ newline
  +:+ "<RosType name=" +:+ quote +:+ "JointStates" +:+ quote +:+ ">"
  +:+ newline
  +:+ default_rule "position.#" " " "@.pos"
  +:+ default_rule "velocity.#" " " "@.vel"
  +:+ default_rule "effort.#" "   " "@.eff"
  +:+ "</RosType>" +:+ newline
  +:+ newline
  +:+ "</SubstitutionRules>" +:+ newline.

(** The widgets of the form that the methods touch, the geometry of the
    window and whether it is open. *)
Record RuleEditing : Type := mkRuleEditing {
  textEdit : string;
  labelValidSyntax : string;
  pushButtonSave_enabled : bool;
  window_geometry : string;
  window_open : bool }.

(** The dialog together with the store of
    [QSettings("IcarusTechnology", "PlotJuggler")]. *)
Definition State : Type := RuleEditing * gmap string string.

Definition setPlainText (text : string) (ed : RuleEditing) : RuleEditing :=
  mkRuleEditing text (labelValidSyntax ed) (pushButtonSave_enabled ed)
    (window_geometry ed) (window_open ed).

(** [QWidget::restoreGeometry(bytes)]: an empty array restores nothing. *)
Definition restoreGeometry (g : string) (ed : RuleEditing) : RuleEditing :=
  if bool_decide (g = "") then ed
  else mkRuleEditing (textEdit ed) (labelValidSyntax ed)
         (pushButtonSave_enabled ed) g (window_open ed).

(** [RuleEditing::closeEvent]: the geometry is stored, then
    [QWidget::closeEvent] lets the window close. *)
Definition closeEvent (st : State) : State :=
  let '(ed, settings) := st in
  (mkRuleEditing (textEdit ed) (labelValidSyntax ed)
     (pushButtonSave_enabled ed) (window_geometry ed) false,
   <["RuleEditing.geometry" := window_geometry ed]> settings).

(** [QWidget::close()] delivers the close event to [closeEvent]. *)
Definition close (st : State) : State := closeEvent st.

(** [RuleEditing::on_pushButtonSave_pressed]. *)
Definition on_pushButtonSave_pressed (st : State) : State :=
  let '(ed, settings) := st in
  close (ed, <["RuleEditing.text" := textEdit ed]> settings).

(** [RuleEditing::on_pushButtonCancel_pressed]. *)
Definition on_pushButtonCancel_pressed (st : State) : State := close st.

(** The answer to [QMessageBox::question]. *)
Inductive StandardButton : Type := Yes | No.

(** [RuleEditing::on_pushButtonReset_pressed], given the user's answer. *)
Definition on_pushButtonReset_pressed (reply : StandardButton) (st : State)
  : State :=
  let '(ed, settings) := st in
  match reply with
  | Yes => (setPlainText DEFAULT ed, settings)
  | No => (ed, settings)
  end.

(** [RuleEditing::on_pushButtonPrevious_pressed]. *)
Definition on_pushButtonPrevious_pressed (st : State) : State :=
  let '(ed, settings) := st in
  match settings !! "RuleEditing.text" with
  | Some text => (setPlainText text ed, settings)
  | None => (setPlainText DEFAULT ed, settings)
  end.

(** The constructor, from the form as [setupUi] builds it: the geometry is
    restored and the stored text (or [DEFAULT]) is put in the editor. *)
Definition construct (ui : RuleEditing) (settings : gmap string string)
  : State :=
  on_pushButtonPrevious_pressed
    (restoreGeometry (default "" (settings !! "RuleEditing.geometry")) ui,
     settings).

Section Parser.

(** [QDomDocument::setContent(text, true, ...)]: Qt's XML parser. *)
Variable setContent : string → ParseResult.

(** [RuleEditing::isValidXml] as a method: it parses the text of the editor
    and writes the verdict in [labelValidSyntax]. *)
Definition isValidXml_method (ed : RuleEditing) : bool * RuleEditing :=
  let '(valid, label) := isValidXml (setContent (textEdit ed)) in
  (valid,
   mkRuleEditing (textEdit ed) label (pushButtonSave_enabled ed)
     (window_geometry ed) (window_open ed)).

(** [RuleEditing::on_timer]. *)
Definition on_timer (ed : RuleEditing) : RuleEditing :=
  let '(valid, ed') := isValidXml_method ed in
  mkRuleEditing (textEdit ed') (labelValidSyntax ed') valid
    (window_geometry ed') (window_open ed').

End Parser.

End RuleEditingDialog.

(** ** The syntax highlighter *)

Module XMLSyntaxHighlighter.

Import RuleEditingDialog.

(** The [Qt::GlobalColor]s in use. *)
Inductive GlobalColor : Type :=
| blue | darkMagenta | darkGreen | darkRed | gray.

(** [QTextCharFormat], as far as [setFormats] sets it; a default-constructed
    format has no foreground and is not italic. *)
Record QTextCharFormat : Type := mkQTextCharFormat {
  foreground : option GlobalColor;
  fontItalic : bool }.

Definition QTextCharFormat_default : QTextCharFormat :=
  mkQTextCharFormat None false.

Definition setForeground (c : GlobalColor) (f : QTextCharFormat)
  : QTextCharFormat :=
  mkQTextCharFormat (Some c) (fontItalic f).

Definition setFontItalic (b : bool) (f : QTextCharFormat) : QTextCharFormat :=
  mkQTextCharFormat (foreground f) b.

(** The members that [setFormats] sets. *)
Definition _xmlKeywordFormat : QTextCharFormat :=
  setForeground blue QTextCharFormat_default.

Definition _xmlElementFormat : QTextCharFormat :=
  setForeground darkMagenta QTextCharFormat_default.

Definition _xmlAttributeFormat : QTextCharFormat :=
  setFontItalic true (setForeground darkGreen QTextCharFormat_default).

Definition _xmlValueFormat : QTextCharFormat :=
  setForeground darkRed QTextCharFormat_default.

Definition _xmlCommentFormat : QTextCharFormat :=
  setForeground gray QTextCharFormat_default.

(** The patterns that [setRegexes] sets (a [QRegExp] is its pattern). *)
Definition _xmlElementRegex : string :=
  "<[\s]*[/]?[\s]*([^\n]\w*)(?=[\s/>])".

Definition _xmlAttributeRegex : string := "\w+(?=\=)".

Definition _xmlValueRegex : string :=
  quote +:+ "[^\n" +:+ quote +:+ "]+" +:+ quote +:+ "(?=[\s/>])".

Definition _xmlCommentRegex : string := "<!--[^\n]*-->".

Definition _xmlKeywordRegexes : list string :=
  ["<\?"; "/>"; ">"; "<"; "</"; "\?>"].

(** A successful match: [indexIn] (which is also [pos(0)]),
    [matchedLength()], and position and length of the first capture
    ([pos(1)], [cap(1).length()]). *)
Record Match : Type := mkMatch {
  m_index : nat;
  m_matchedLength : nat;
  m_pos1 : nat;
  m_cap1_length : nat }.

(** The part of a match that a loop formats and steps over. *)
Definition whole_match (m : Match) : nat * nat :=
  (m_index m, m_matchedLength m).

Definition first_capture (m : Match) : nat * nat :=
  (m_pos1 m, m_cap1_length m).

(** [QSyntaxHighlighter::setFormat(start, count, format)] on the formats of
    the characters of the current block: the characters from [start] up to
    [start + count], as far as the block goes, get [format]. *)
Definition setFormat (start count : nat) (format : QTextCharFormat)
    (formats : list QTextCharFormat) : list QTextCharFormat :=
  imap (λ i f, if bool_decide (start ≤ i < start + count)%nat
               then format else f) formats.

Section Engine.

(** Qt's regular expression engine: [regexp pattern text offset] is what
    [QRegExp(pattern).indexIn(text, offset)] finds, [None] when it returns
    [-1]. *)
Variable regexp : string → string → nat → option Match.

(** The loop
    [index = regex.indexIn(text, offset);
     while (index >= 0) { setFormat(...); index = regex.indexIn(text, end); }]
    shared by [highlightByRegex] (which formats the whole match) and the
    head of [highlightBlock] (which formats the first capture). [None]: the
    iterations allowed by [fuel] did not reach the end of the loop. *)
Fixpoint highlight_loop (part : Match → nat * nat) (fuel : nat)
    (format : QTextCharFormat) (regex text : string) (offset : nat)
    (formats : list QTextCharFormat) : option (list QTextCharFormat) :=
  match fuel with
  | O => None
  | S fuel' =>
      match regexp regex text offset with
      | None => Some formats
      | Some m =>
          let '(matchedPos, matchedLength) := part m in
          highlight_loop part fuel' format regex text
            (matchedPos + matchedLength)
            (setFormat matchedPos matchedLength format formats)
      end
  end.

(** [XMLSyntaxHighlighter::highlightByRegex]. *)
Definition highlightByRegex (fuel : nat) (format : QTextCharFormat)
    (regex text : string) (formats : list QTextCharFormat)
  : option (list QTextCharFormat) :=
  highlight_loop whole_match fuel format regex text 0 formats.

(** The loop of [highlightBlock] over [_xmlKeywordRegexes]. *)
Fixpoint highlightKeywords (fuel : nat) (regexes : list string)
    (text : string) (formats : list QTextCharFormat)
  : option (list QTextCharFormat) :=
  match regexes with
  | [] => Some formats
  | regex :: rest =>
      formats' ← highlightByRegex fuel _xmlKeywordFormat regex text formats;
      highlightKeywords fuel rest text formats'
  end.

(** [XMLSyntaxHighlighter::highlightBlock]. *)
Definition highlightBlock (fuel : nat) (text : string)
    (formats : list QTextCharFormat) : option (list QTextCharFormat) :=
  formats ← highlight_loop first_capture fuel _xmlElementFormat
              _xmlElementRegex text 0 formats;
  formats ← highlightKeywords fuel _xmlKeywordRegexes text formats;
  formats ← highlightByRegex fuel _xmlAttributeFormat _xmlAttributeRegex
              text formats;
  formats ← highlightByRegex fuel _xmlCommentFormat _xmlCommentRegex
              text formats;
  highlightByRegex fuel _xmlValueFormat _xmlValueRegex text formats.

(** The ranges a loop formats: the successive matches of [regex] in [text],
    each searched from the end of the one before. *)
Fixpoint scan (part : Match → nat * nat) (fuel : nat) (regex text : string)
    (offset : nat) : option (list (nat * nat)) :=
  match fuel with
  | O => None
  | S fuel' =>
      match regexp regex text offset with
      | None => Some []
      | Some m =>
          ranges ← scan part fuel' regex text (fst (part m) + snd (part m));
          Some (part m :: ranges)
      end
  end.

(** The engine finds matches at or after the offset, inside the text, and
    the part that is stepped over is not empty. *)
Definition well_behaved (part : Match → nat * nat) (regex text : string)
  : Prop :=
  ∀ offset m,
    regexp regex text offset = Some m →
    (offset ≤ fst (part m)
     ∧ 0 < snd (part m)
     ∧ fst (part m) + snd (part m) ≤ String.length text)%nat.

End Engine.

(** Whether position [i] lies in one of the ranges. *)
Definition covered (ranges : list (nat * nat)) (i : nat) : bool :=
  existsb (λ r, bool_decide (fst r ≤ i < fst r + snd r)%nat) ranges.

(** Each range starts at or after [offset] and at or after the end of the
    range before it. *)
Fixpoint ascending (offset : nat) (ranges : list (nat * nat)) : Prop :=
  match ranges with
  | [] => True
  | r :: rest => (offset ≤ fst r)%nat ∧ ascending (fst r + snd r) rest
  end.

(** An engine for the examples, which knows the patterns of one ordinary
    character: it finds the first occurrence at or after the offset. *)
Fixpoint find_char (c : Ascii.ascii) (text : string) (offset : nat)
  : option nat :=
  match text with
  | EmptyString => None
  | String a rest =>
      match offset with
      | O => if Ascii.eqb a c then Some O else S <$> find_char c rest O
      | S offset' => S <$> find_char c rest offset'
      end
  end.

Definition char_engine (pattern text : string) (offset : nat)
  : option Match :=
  match pattern with
  | String c EmptyString => (λ i, mkMatch i 1 i 1) <$> find_char c text offset
  | _ => None
  end.

(** A text on which the passes overlap,
    [</><!--k="v" -->] (with the quotes around [v]):
    the element pattern captures the [/] of [</>], which the keyword [/>]
    covers too; the comment covers the brackets around it, the attribute
    name [k] and the value. *)
Definition example_text : string :=
  "</><!--k=" +:+ quote +:+ "v" +:+ quote +:+ " -->".

(** The matches of each pattern of [setRegexes] in [example_text], from
    left to right (patterns without a capture carry none). *)
Definition example_table : list (string * list Match) :=
  [ (_xmlElementRegex, [mkMatch 0 2 1 1]);
    ("/>", [mkMatch 1 2 1 0]);
    (">", [mkMatch 2 1 2 0; mkMatch 15 1 15 0]);
    ("<", [mkMatch 0 1 0 0; mkMatch 3 1 3 0]);
    ("</", [mkMatch 0 2 0 0]);
    (_xmlAttributeRegex, [mkMatch 7 1 7 0]);
    (_xmlCommentRegex, [mkMatch 3 13 3 0]);
    (_xmlValueRegex, [mkMatch 9 3 9 0]) ].

Definition example_matches (pattern : string) : list Match :=
  match List.find (λ entry, String.eqb (fst entry) pattern) example_table with
  | Some entry => snd entry
  | None => []
  end.

(** An engine that answers for [example_text] from the table: the first
    match at or after the offset. *)
Definition example_engine (pattern text : string) (offset : nat)
  : option Match :=
  if String.eqb text example_text
  then List.find (λ m, (offset <=? m_index m)%nat) (example_matches pattern)
  else None.

End XMLSyntaxHighlighter.

(** Rational constants for the examples. *)
Definition frac (n : Z) (d : positive) : double := Q2Qc (n # d).

Definition example_dialog : VideoDialog :=
  mkVideoDialog false false None "video.mp4" "speed" true false "".

Definition example_series : PlotData :=
  [(frac 0 1, frac 10 1); (frac 1 1, frac 20 1)].


Definition example_world : World :=
  mkWorld (mkPublisherVideo example_dialog {["speed" := example_series]} false)
    ∅ ∅ "/home" (λ filename, "/videos") [].

Definition example_settings : gmap string string :=
  {[ "VideoDialog::video_file" := "a.mp4"; "VideoDialog::curve_name" := "rpm" ]}.

(** A plugin whose state came from a layout file, next to a settings store
    that holds another configuration; no environment override. *)
Definition example_world_xml_loaded : World :=
  mkWorld (mkPublisherVideo example_dialog {["speed" := example_series]} true)
    example_settings ∅ "/home" (λ filename, "/videos") [].

Definition example_world_fresh : World :=
  mkWorld (mkPublisherVideo example_dialog {["speed" := example_series]} false)
    example_settings ∅ "/home" (λ filename, "/videos") [].

(** The document of the text
    [<?SubstitutionRules draft?>
     <SubstitutionRules><RosType name=.../></SubstitutionRules>]. *)
Definition example_shadowed_document : QDomDocument :=
  [ ProcessingInstructionNode "SubstitutionRules" "draft";
    ElementNode
      (mkQDomElement "SubstitutionRules" ∅
         [ElementNode (mkQDomElement "RosType" {["name" := "JointStates"]} [])]) ].

(** A saved layout: a plugin element whose [config] child names a file and
    a curve. *)
Definition example_config : QDomElement :=
  mkQDomElement "config"
    {[ "video_file" := "ride.mp4"; "curve_name" := "gps" ]} [].

Definition example_layout : QDomElement :=
  mkQDomElement "plugin" ∅ [CommentNode "layout"; ElementNode example_config].

(** A document with a comment before the root, and text and a comment
    among the children:
    [<!--rules--><SubstitutionRules> <RosType name=...> <!--x-->
     <rule pattern=... alias=... substitution=... timestamp=.../>
     </RosType></SubstitutionRules>]. *)
Definition example_rules_document : QDomDocument :=
  [ CommentNode "rules";
    ElementNode
      (mkQDomElement "SubstitutionRules" ∅
         [ TextNode " ";
           ElementNode
             (mkQDomElement "RosType" {[ "name" := "JointStates" ]}
                [ CommentNode "x";
                  ElementNode
                    (mkQDomElement "rule"
                       {[ "pattern" := "position.#"; "alias" := "name.#";
                          "substitution" := "@.pos";
                          "timestamp" := "header.stamp" ]} []) ]) ]) ].

(** Both variables of the environment override set. *)
Definition example_world_env : World :=
  mkWorld (mkPublisherVideo example_dialog {["speed" := example_series]} true)
    example_settings
    {[ "VIDEO_PATH" := "video.mp4"; "VIDEO_REFERENCE_CURVE" := "gps" ]}
    "/home" (λ filename, "/videos") [].

(** * Properties *)

(** ** Sampling a series *)

Section Sampling.

Implicit Types (s rest : PlotData) (p : Point) (t : double).

Lemma time_ordered_cons p rest :
  time_ordered (p :: rest) = true →
  Forall (λ r, fst p ≤ fst r) rest ∧ time_ordered rest = true.
Proof.
  revert p. induction rest as [|r rest IH]; intros p H; [by split|].
  cbn [time_ordered] in H. apply andb_prop in H as [Hpr Hrest].
  apply bool_decide_eq_true in Hpr.
  destruct (IH r Hrest) as [Hall _]. split; [|done].
  constructor; [done|].
  eapply List.Forall_impl; [|exact Hall]. intros x Hx. cbn in Hx.
  by apply Qcle_trans with (fst r).
Qed.


Lemma last_timestamp_ge p rest :
  time_ordered (p :: rest) = true → fst p ≤ fst (List.last rest p).
Proof.
  intros H. apply time_ordered_cons in H as [Hall _].
  destruct rest as [|r rest] using rev_ind; [apply Qcle_refl|].
  rewrite last_last. apply Forall_app in Hall as [_ Hall].
  by apply Forall_inv in Hall.
Qed.

Lemma last_cons_default {A} (l : list A) (a d : A) :
  List.last (a :: l) d = List.last l a.
Proof.
  revert a d. induction l as [|b l IH]; intros a d; [done|].
  change (List.last (a :: b :: l) d) with (List.last (b :: l) d).
  by rewrite !IH.
Qed.


Lemma last_elem_of {A} (l : list A) (a : A) : List.last l a ∈ a :: l.
Proof.
  revert a. induction l as [|b l IH]; intros a; [by left|].
  rewrite last_cons_default. right. apply IH.
Qed.

Lemma last_app_cons {A} (l1 : list A) (a : A) (l2 : list A) (d : A) :
  List.last (l1 ++ a :: l2) d = List.last l2 a.
Proof.
  revert d. induction l1 as [|x l1 IH]; intros d; cbn [app].
  - apply last_cons_default.
  - rewrite last_cons_default. apply IH.
Qed.


End Sampling.





(** C2. In a non-empty series a query time before the first sample yields
    the first sample's value, and (timestamps never decreasing, as the data
    model has it) a query time after the last sample yields the last
    sample's value: the result is clamped to the boundary sample, never
    extrapolated. *)
Theorem getYfromX_clamps (p : Point) (rest : PlotData) :
  (∀ t, t < fst p → getYfromX (p :: rest) t = Some (snd p))
  ∧ (time_ordered (p :: rest) = true →
     ∀ t, fst (List.last rest p) < t →
          getYfromX (p :: rest) t = Some (snd (List.last rest p))).
Proof.
  split; [intros t Ht | intros Hord t Ht]; cbn [getYfromX]; f_equal.
  - by rewrite bool_decide_eq_true_2 by by apply Qclt_le_weak.
  - rewrite bool_decide_eq_false_2.
    + by rewrite bool_decide_eq_true_2.
    + apply Qclt_not_le. apply Qcle_lt_trans with (fst (List.last rest p));
        [|done]. by apply last_timestamp_ge.
Qed.

Lemma getYfromX_clamps_witness :
  getYfromX example_series (frac (-1) 1) = Some (frac 10 1)
  ∧ getYfromX example_series (frac 5 1) = Some (frac 20 1).
Proof.
  destruct (getYfromX_clamps (frac 0 1, frac 10 1) [(frac 1 1, frac 20 1)])
    as [Hlow Hhigh].
  split; [apply Hlow | apply Hhigh]; reflexivity.
Defined.

(** ** Sampling in binary64

    The properties of the sampler rest on the order of the timestamps
    alone: they hold in binary64 as they do in exact arithmetic. *)

Section FloatOrder.

Lemma SFcompare_opp (x y : spec_float) :
  SFcompare y x = option_map CompOpp (SFcompare x y).
Proof.
  destruct x as [sx|sx| |sx mx ex], y as [sy|sy| |sy my ey]; cbn;
    try reflexivity; try (destruct sx; reflexivity);
    try (destruct sy; reflexivity);
    try (destruct sx, sy; reflexivity).
  change (PosDef.Pos.compare_cont Eq) with Pos.compare.
  change IntDef.Z.compare with Z.compare.
  rewrite (Z.compare_antisym ex ey), (Pos.compare_antisym mx my).
  destruct sx, sy; cbn; try reflexivity;
    destruct (ex ?= ey)%Z; cbn; try reflexivity;
    destruct (mx ?= my)%positive; reflexivity.
Qed.

Lemma SFleb_trans (x y z : spec_float) :
  SFleb x y = true → SFleb y z = true → SFleb x z = true.
Proof.
  unfold SFleb.
  destruct x as [sx|sx| |sx mx ex], y as [sy|sy| |sy my ey],
    z as [sz|sz| |sz mz ez]; cbn;
    try discriminate; try reflexivity;
    repeat match goal with b : bool |- _ => destruct b end; cbn;
    try discriminate; try reflexivity.
  all: change (PosDef.Pos.compare_cont Eq) with Pos.compare;
    change IntDef.Z.compare with Z.compare.
  all: destruct (Z.compare_spec ex ey), (Z.compare_spec ey ez),
         (Z.compare_spec ex ez); subst; cbn;
       try discriminate; try reflexivity; try lia.
  all: destruct (Pos.compare_spec mx my), (Pos.compare_spec my mz),
         (Pos.compare_spec mx mz); subst; cbn;
       try discriminate; try reflexivity; try lia.
Qed.

Lemma float_leb_trans (x y z : float) :
  PrimFloat.leb x y = true → PrimFloat.leb y z = true →
  PrimFloat.leb x z = true.
Proof. rewrite !FloatAxioms.leb_spec. apply SFleb_trans. Qed.

Lemma float_ltb_leb (x y : float) :
  PrimFloat.ltb x y = true → PrimFloat.leb x y = true.
Proof.
  rewrite FloatAxioms.ltb_spec, FloatAxioms.leb_spec. unfold SFltb, SFleb.
  by destruct (SFcompare (Prim2SF x) (Prim2SF y)) as [[]|].
Qed.

Lemma float_ltb_not_leb (x y : float) :
  PrimFloat.ltb x y = true → PrimFloat.leb y x = false.
Proof.
  rewrite FloatAxioms.ltb_spec, FloatAxioms.leb_spec. unfold SFltb, SFleb.
  rewrite (SFcompare_opp (Prim2SF x) (Prim2SF y)).
  by destruct (SFcompare (Prim2SF x) (Prim2SF y)) as [[]|].
Qed.

Lemma float_leb_not_ltb (x y : float) :
  PrimFloat.leb x y = true → PrimFloat.ltb y x = false.
Proof.
  rewrite FloatAxioms.ltb_spec, FloatAxioms.leb_spec. unfold SFltb, SFleb.
  rewrite (SFcompare_opp (Prim2SF x) (Prim2SF y)).
  by destruct (SFcompare (Prim2SF x) (Prim2SF y)) as [[]|].
Qed.

Lemma float_eqb_leb (x y : float) :
  PrimFloat.eqb x y = true →
  PrimFloat.leb x y = true ∧ PrimFloat.leb y x = true.
Proof.
  rewrite FloatAxioms.eqb_spec, !FloatAxioms.leb_spec. unfold SFeqb, SFleb.
  rewrite (SFcompare_opp (Prim2SF x) (Prim2SF y)).
  by destruct (SFcompare (Prim2SF x) (Prim2SF y)) as [[]|].
Qed.

Lemma float_leb_antisym (x y : float) :
  PrimFloat.leb x y = true → PrimFloat.leb y x = true →
  PrimFloat.eqb x y = true.
Proof.
  rewrite FloatAxioms.eqb_spec, !FloatAxioms.leb_spec. unfold SFeqb, SFleb.
  rewrite (SFcompare_opp (Prim2SF x) (Prim2SF y)).
  by destruct (SFcompare (Prim2SF x) (Prim2SF y)) as [[]|].
Qed.

End FloatOrder.

Section Sampling64.

Implicit Types (s rest : list (float * float)) (p : float * float) (t : float).

Lemma time_ordered64_cons p rest :
  Binary64.time_ordered (p :: rest) = true →
  Forall (λ r, PrimFloat.leb (fst p) (fst r) = true) rest
  ∧ Binary64.time_ordered rest = true.
Proof.
  revert p. induction rest as [|r rest IH]; intros p H; [by split|].
  cbn [Binary64.time_ordered] in H. apply andb_prop in H as [Hpr Hrest].
  destruct (IH r Hrest) as [Hall _]. split; [|done].
  constructor; [done|].
  eapply List.Forall_impl; [|exact Hall]. intros x Hx. cbn in Hx.
  by apply float_leb_trans with (fst r).
Qed.

Lemma time_ordered64_app l1 l2 :
  Binary64.time_ordered (l1 ++ l2) = true →
  Binary64.time_ordered l2 = true
  ∧ Forall (λ a, Forall (λ b, PrimFloat.leb (fst a) (fst b) = true) l2) l1.
Proof.
  induction l1 as [|a l1 IH]; intros H; [by split|].
  destruct (time_ordered64_cons _ _ H) as [Hall Hrest].
  destruct (IH Hrest) as (H2 & H12).
  apply Forall_app in Hall as [_ Hall2]. split; [done|by constructor].
Qed.

Lemma last_timestamp64 p rest t :
  PrimFloat.leb t (fst p) = true →
  Binary64.time_ordered (p :: rest) = true →
  PrimFloat.leb t (fst (List.last rest p)) = true.
Proof.
  intros Ht Hord. apply time_ordered64_cons in Hord as [Hall _].
  destruct rest as [|r rest _] using rev_ind; [done|].
  rewrite last_last. apply Forall_app in Hall as [_ Hall].
  apply Forall_inv in Hall. by apply float_leb_trans with (fst p).
Qed.

Lemma interpolate64_bracket l1 p q0 l2 t :
  Forall (λ r, PrimFloat.leb t (fst r) = false) l1 →
  PrimFloat.leb t (fst q0) = true →
  Binary64.interpolate p (l1 ++ q0 :: l2) t
  = if PrimFloat.leb (fst q0) t then snd q0
    else Binary64.lerp (List.last l1 p) q0 t.
Proof.
  revert p. induction l1 as [|r l1 IH]; intros p Hlt Hle;
    rewrite last_cons_default || idtac; cbn [Binary64.interpolate app].
  - by rewrite Hle.
  - inversion_clear Hlt as [|?? Hr Hlt']. rewrite Hr. by rewrite IH.
Qed.

Lemma getYfromX64_inner l1 p0 p1 l2 t :
  Binary64.time_ordered (l1 ++ p0 :: p1 :: l2) = true →
  PrimFloat.leb t (fst p0) = false →
  PrimFloat.leb t (fst p1) = true →
  Binary64.getYfromX (l1 ++ p0 :: p1 :: l2) t
  = Some (if PrimFloat.leb (fst p1) t then snd p1
          else Binary64.lerp p0 p1 t).
Proof.
  intros Hord H0 H1.
  assert (Forall (λ r, PrimFloat.leb t (fst r) = false) (l1 ++ [p0]))
    as Hbefore.
  { apply Forall_app. split; [|by repeat constructor].
    apply time_ordered64_app in Hord as (_ & Hord).
    eapply List.Forall_impl; [|exact Hord]. intros a Ha. cbn in Ha.
    apply Forall_inv in Ha.
    destruct (PrimFloat.leb t (fst a)) eqn:E; [|done].
    by rewrite (float_leb_trans _ _ _ E Ha) in H0. }
  assert (PrimFloat.leb t (fst (List.last l2 p1)) = true) as Hlast.
  { apply last_timestamp64; [done|].
    apply time_ordered64_app in Hord as (Hord & _).
    by apply time_ordered64_cons in Hord as [_ Hord]. }
  replace (l1 ++ p0 :: p1 :: l2) with ((l1 ++ [p0]) ++ p1 :: l2)
    by by rewrite <- app_assoc.
  assert (List.last (l1 ++ [p0]) p0 = p0) as Hp0 by apply last_last.
  destruct (l1 ++ [p0]) as [|a l] eqn:Hl; [by destruct l1|].
  inversion_clear Hbefore as [|?? Ha Hl'].
  cbn [Binary64.getYfromX app]. f_equal.
  rewrite Ha, last_app_cons, (float_leb_not_ltb _ _ Hlast).
  rewrite interpolate64_bracket by done.
  by rewrite <- (last_cons_default l a p0), Hp0.
Qed.

End Sampling64.

(** In binary64, with the comparisons of IEEE 754: a query time strictly
    between two consecutive samples yields the interpolation formula as
    binary64 evaluates it, and a query time equal to the timestamp of a
    sample yields the value of the first sample with this timestamp, bit
    for bit. *)
Lemma getYfromX64_interpolates (s : list (float * float)) :
  Binary64.time_ordered s = true →
  (∀ l1 l2 t0 v0 t1 v1 t,
      s = l1 ++ (t0, v0) :: (t1, v1) :: l2 →
      PrimFloat.ltb t0 t = true → PrimFloat.ltb t t1 = true →
      Binary64.getYfromX s t
      = Some (v0 + (v1 - v0) * (t - t0) / (t1 - t0))%float)
  ∧ (∀ l1 l2 ts v t,
      s = l1 ++ (ts, v) :: l2 →
      PrimFloat.eqb t ts = true →
      Forall (λ r, PrimFloat.eqb (fst r) t = false) l1 →
      Binary64.getYfromX s t = Some v).
Proof.
  intros Hord. split.
  - intros l1 l2 t0 v0 t1 v1 t -> H0 H1.
    rewrite (getYfromX64_inner l1 (t0, v0) (t1, v1) l2 t);
      [|done|by apply float_ltb_not_leb|by apply float_ltb_leb].
    cbn [fst snd]. by rewrite (float_ltb_not_leb _ _ H1).
  - intros l1 l2 ts v t -> Heq Hfirst.
    apply float_eqb_leb in Heq as [Hle Hge].
    destruct l1 as [|p0 l1 _] using rev_ind.
    { cbn. by rewrite Hle. }
    assert (PrimFloat.leb t (fst p0) = false) as H0.
    { apply Forall_app in Hfirst as [_ Hfirst]. apply Forall_inv in Hfirst.
      apply time_ordered64_app in Hord as (_ & Hord).
      apply Forall_app in Hord as [_ Hord]. apply Forall_inv in Hord.
      apply Forall_inv in Hord. cbn in Hord.
      destruct (PrimFloat.leb t (fst p0)) eqn:E; [|done].
      rewrite (float_leb_antisym (fst p0) t) in Hfirst; [done| |done].
      by apply float_leb_trans with ts. }
    rewrite <- app_assoc in Hord |- *. cbn [app] in Hord |- *.
    rewrite (getYfromX64_inner l1 p0 (ts, v) l2 t); [|done|done|done].
    cbn [fst snd]. by rewrite Hge.
Qed.

(** A series on which interpolating up to the sample at [t = 2] would
    round to [0]; the sample's value [1] comes out unharmed. *)
Example getYfromX64_exact_under_rounding :
  Binary64.lerp (1, 1e16)%float (2, 1)%float 2%float = 0%float
  ∧ Binary64.getYfromX [(0, 5); (1, 1e16); (2, 1); (3, 7)]%float 2%float
    = Some 1%float
  ∧ Binary64.getYfromX [(0, 10); (1, 20)]%float 0.5%float = Some 15%float.
Proof. split_and!; vm_compute; reflexivity. Qed.

(** ** The per-tick entry point *)

Ltac run := unfold mbind, M_bind, mret, M_ret; cbn.

(** C5. On a tick where the synchroniser is inactive (the dialog is hidden
    or the reference curve name is empty) [updateState] returns at once and
    leaves the world as it was: no call reaches the series repository (no
    lookup, no sampling) or the dialog (no pause, no seek). *)
Theorem updateState_inactive (current_time : double) (w : World) :
  isHidden (_dialog (self w)) = true
  ∨ referenceCurve (_dialog (self w)) = "" →
  updateState current_time w = Normal tt w.
Proof.
  intros H. unfold updateState, get_dialog, get_self. run.
  destruct (isHidden (_dialog (self w))) eqn:Hh; [done|].
  destruct H as [H|H]; [done|]. by rewrite H.
Qed.

Lemma updateState_inactive_witness :
  updateState (frac 1 2)
    (mkWorld (mkPublisherVideo (setReference "" example_dialog)
                {["speed" := example_series]} false)
       ∅ ∅ "/home" (λ filename, "/videos") [])
  = Normal tt
      (mkWorld (mkPublisherVideo (setReference "" example_dialog)
                  {["speed" := example_series]} false)
         ∅ ∅ "/home" (λ filename, "/videos") []).
Proof. apply updateState_inactive. right. reflexivity. Defined.

(** C3. On a tick where the reference curve does not resolve in the series
    repository, or resolves to a series without samples, [updateState]
    returns normally (it does not throw) and has no effect: the plugin and
    the settings are as before and the only calls made are reads of the
    series repository, none on the dialog (no pause, no seek, nothing shown
    to the user). *)
Theorem updateState_missing_series (current_time : double) (w : World) :
  _datamap (self w) !! referenceCurve (_dialog (self w)) = None
  ∨ _datamap (self w) !! referenceCurve (_dialog (self w)) = Some [] →
  ∃ w' cs,
    updateState current_time w = Normal tt w'
    ∧ self w' = self w ∧ settings w' = settings w
    ∧ calls w' = calls w ++ cs
    ∧ forallb (λ c, negb (is_actuator c)) cs = true.
Proof.
  intros H. unfold updateState, get_dialog, get_self. run.
  destruct (isHidden (_dialog (self w))).
  { exists w, []. by rewrite app_nil_r. }
  case_bool_decide.
  { exists w, []. by rewrite app_nil_r. }
  unfold datamap_find, data_getYfromX, call, get_self. run.
  destruct H as [-> | ->]; cbn.
  - by eexists _, [CallFind _].
  - eexists _, [CallFind _; CallGetYfromX _ _]. split_and!; try done.
    cbn. by rewrite <- app_assoc.
Qed.

Lemma updateState_missing_series_witness :
  ∃ w' cs,
    updateState (frac 1 2)
      (mkWorld (mkPublisherVideo example_dialog {["speed" := []]} false)
         ∅ ∅ "/home" (λ filename, "/videos") [])
    = Normal tt w'
    ∧ self w' = mkPublisherVideo example_dialog {["speed" := []]} false
    ∧ settings w' = ∅
    ∧ calls w' = [] ++ cs
    ∧ forallb (λ c, negb (is_actuator c)) cs = true.
Proof.
  apply (updateState_missing_series (frac 1 2)
    (mkWorld (mkPublisherVideo example_dialog {["speed" := []]} false)
       ∅ ∅ "/home" (λ filename, "/videos") [])).
  right. reflexivity.
Defined.

(** A tick on which the series resolves and yields a value: the calls made,
    in order, and the plugin afterwards. *)
Lemma updateState_drive (current_time : double) (w : World)
    (data : PlotData) (v : double) :
  isActive (self w) = true →
  _datamap (self w) !! referenceCurve (_dialog (self w)) = Some data →
  getYfromX data current_time = Some v →
  ∃ w',
    updateState current_time w = Normal tt w'
    ∧ self w' =
        mkPublisherVideo
          (seekByValue v
             (if isPaused (_dialog (self w))
              then _dialog (self w) else pause true (_dialog (self w))))
          (_datamap (self w)) (_xml_loaded (self w))
    ∧ calls w' =
        calls w
        ++ [CallFind (referenceCurve (_dialog (self w)));
            CallGetYfromX (referenceCurve (_dialog (self w))) current_time]
        ++ (if isPaused (_dialog (self w)) then [] else [CallPause true])
        ++ [CallSeekByValue v].
Proof.
  unfold isActive. intros Hact Hfind Hy.
  apply andb_prop in Hact as [Hh Hr].
  apply negb_true_iff in Hh. apply negb_true_iff in Hr.
  unfold updateState, get_dialog, get_self. run. rewrite Hh, Hr.
  unfold datamap_find, data_getYfromX, call, get_self. run.
  rewrite Hfind. cbn. rewrite Hy. cbn.
  unfold dialog_pause, dialog_seekByValue, modify_dialog, call, get_self,
    put_self. run.
  destruct (isPaused (_dialog (self w))); cbn; eexists; split_and!;
    try done; cbn; by rewrite <- !app_assoc.
Qed.

(** C4. When a tick drives the dialog, the stream is paused at the moment
    the seek is applied, and [pause(true)] is called only if the stream was
    not paused yet; on the next tick that drives, with no [pause(false)] in
    between, [pause(true)] is not called again: the calls are the lookup,
    the sampling and the seek. *)
Theorem updateState_pauses_once (t1 t2 : double) (w : World)
    (data : PlotData) (v1 v2 : double) :
  isActive (self w) = true →
  _datamap (self w) !! referenceCurve (_dialog (self w)) = Some data →
  getYfromX data t1 = Some v1 →
  getYfromX data t2 = Some v2 →
  ∃ w1 w2 d_paused,
    updateState t1 w = Normal tt w1
    ∧ calls w1 =
        calls w
        ++ [CallFind (referenceCurve (_dialog (self w)));
            CallGetYfromX (referenceCurve (_dialog (self w))) t1]
        ++ (if isPaused (_dialog (self w)) then [] else [CallPause true])
        ++ [CallSeekByValue v1]
    ∧ isPaused d_paused = true
    ∧ _dialog (self w1) = seekByValue v1 d_paused
    ∧ updateState t2 w1 = Normal tt w2
    ∧ calls w2 =
        calls w1
        ++ [CallFind (referenceCurve (_dialog (self w)));
            CallGetYfromX (referenceCurve (_dialog (self w))) t2;
            CallSeekByValue v2].
Proof.
  intros Hact Hfind Hy1 Hy2.
  destruct (updateState_drive t1 w data v1 Hact Hfind Hy1)
    as (w1 & Hrun1 & Hself1 & Hcalls1).
  assert (isPaused
            (if isPaused (_dialog (self w))
             then _dialog (self w) else pause true (_dialog (self w)))
          = true) as Hpaused.
  { by destruct (isPaused (_dialog (self w))) eqn:E. }
  assert (referenceCurve (_dialog (self w1))
          = referenceCurve (_dialog (self w))) as Href.
  { rewrite Hself1. cbn. by destruct (isPaused (_dialog (self w))). }
  assert (isActive (self w1) = true) as Hact1.
  { unfold isActive in *. rewrite Href. rewrite Hself1. cbn.
    by destruct (isPaused (_dialog (self w))). }
  assert (_datamap (self w1) !! referenceCurve (_dialog (self w1))
          = Some data) as Hfind1.
  { rewrite Href, Hself1. done. }
  destruct (updateState_drive t2 w1 data v2 Hact1 Hfind1 Hy2)
    as (w2 & Hrun2 & Hself2 & Hcalls2).
  exists w1, w2. eexists. split_and!; [done|done|exact Hpaused| | done |].
  - by rewrite Hself1.
  - rewrite Hcalls2, Href. rewrite Hself1. cbn [_dialog].
    replace (isPaused (seekByValue v1 _)) with true; done.
Qed.

Lemma updateState_pauses_once_witness :
  ∃ w1 w2 d_paused,
    updateState (frac 1 2) example_world = Normal tt w1
    ∧ calls w1 =
        [] ++ [CallFind "speed"; CallGetYfromX "speed" (frac 1 2)]
        ++ [CallPause true] ++ [CallSeekByValue (frac 15 1)]
    ∧ isPaused d_paused = true
    ∧ _dialog (self w1) = seekByValue (frac 15 1) d_paused
    ∧ updateState (frac 1 1) w1 = Normal tt w2
    ∧ calls w2 =
        calls w1
        ++ [CallFind "speed"; CallGetYfromX "speed" (frac 1 1);
            CallSeekByValue (frac 20 1)].
Proof.
  apply (updateState_pauses_once (frac 1 2) (frac 1 1) example_world
           example_series (frac 15 1) (frac 20 1)); reflexivity.
Defined.

(** C9. [play] does exactly what [updateState] does, for every time value
    and from every state. *)
Theorem play_is_updateState (current_time : double) (w : World) :
  play current_time w = updateState current_time w.
Proof. reflexivity. Qed.

(** ** Saving and loading the state *)

Lemma firstElement_app tag (l l' : list QDomNode) :
  firstElement tag l = None →
  firstElement tag (l ++ l') = firstElement tag l'.
Proof.
  induction l as [|n l IH]; [done|]. cbn [app firstElement].
  destruct n as [e| | |]; try done.
  by destruct (bool_decide (tag = "") || bool_decide (tagName e = tag)).
Qed.

(** C8. When the parent element has no [config] child, [xmlLoadState]
    returns [false] without throwing and changes nothing: the dialog, the
    [_xml_loaded] flag, the settings and the call record are as before, so
    the plugin stays in the state it had (inactive, if it was). *)
Theorem xmlLoadState_no_config (parent_element : QDomElement) (w : World) :
  firstChildElement "config" parent_element = None →
  xmlLoadState parent_element w = Normal false w.
Proof. intros H. unfold xmlLoadState. by rewrite H. Qed.

Lemma xmlLoadState_no_config_witness :
  xmlLoadState
    (mkQDomElement "plugin" ∅
       [TextNode "config"; ElementNode (createElement "other")])
    example_world
  = Normal false example_world.
Proof. apply xmlLoadState_no_config. reflexivity. Defined.

(** C7. [xmlSaveState] returns [true] and appends to the parent a [config]
    element carrying the media source path ([video_file]), the series name
    ([curve_name]) and the [use_frame] flag; [xmlLoadState], given an element
    whose [config] child is that element, returns [true] and leaves the
    dialog with the same media source path, series name and [use_frame]
    choice, whatever it held before. *)
Theorem xml_save_load_roundtrip (w : World) (parent_element : QDomElement) :
  ∃ config,
    xmlSaveState parent_element w
    = Normal (true, appendChild config parent_element) w
    ∧ tagName config = "config"
    ∧ attribute "video_file" config = lineFilename (_dialog (self w))
    ∧ attribute "curve_name" config = lineEditReference (_dialog (self w))
    ∧ attribute "use_frame" config
      = (if radioButtonFrame (_dialog (self w)) then "true" else "false")
    ∧ (firstChildElement "config" parent_element = None →
       firstChildElement "config" (appendChild config parent_element)
       = Some config)
    ∧ ∀ (saved : QDomElement) (w0 : World),
        firstChildElement "config" saved = Some config →
        ∃ w1,
          xmlLoadState saved w0 = Normal true w1
          ∧ lineFilename (_dialog (self w1)) = lineFilename (_dialog (self w))
          ∧ lineEditReference (_dialog (self w1))
            = lineEditReference (_dialog (self w))
          ∧ radioButtonFrame (_dialog (self w1))
            = radioButtonFrame (_dialog (self w))
          ∧ calls w1
            = calls w0 ++ [CallLoadFile (lineFilename (_dialog (self w)))]
          ∧ _xml_loaded (self w1) = true.
Proof.
  eexists. split; [reflexivity|]. split_and!; try done.
  - intros Hnone. unfold firstChildElement, appendChild in *. cbn.
    by rewrite firstElement_app.
  - intros saved w0 Hsaved. unfold xmlLoadState. rewrite Hsaved.
    unfold dialog_loadFile, modify_dialog, set_xml_loaded, call, get_self,
      put_self. run.
    destruct (radioButtonFrame (_dialog (self w))); cbn;
      eexists; split_and!; done.
Qed.

Lemma xml_save_load_roundtrip_witness :
  ∃ saved w1,
    xmlSaveState (createElement "plugin") example_world
    = Normal (true, saved) example_world
    ∧ xmlLoadState saved
        (mkWorld (mkPublisherVideo
                    (mkVideoDialog true false None "" "" false true "")
                    ∅ false) ∅ ∅ "/home" (λ filename, "/videos") [])
      = Normal true w1
    ∧ lineFilename (_dialog (self w1)) = "video.mp4"
    ∧ lineEditReference (_dialog (self w1)) = "speed"
    ∧ radioButtonFrame (_dialog (self w1)) = true.
Proof.
  destruct (xml_save_load_roundtrip example_world (createElement "plugin"))
    as (config & Hsave & _ & _ & _ & _ & Hfirst & Hload).
  destruct (Hload (appendChild config (createElement "plugin"))
              (mkWorld (mkPublisherVideo
                          (mkVideoDialog true false None "" "" false true "")
                          ∅ false) ∅ ∅ "/home" (λ filename, "/videos") [])
              (Hfirst eq_refl))
    as (w1 & Hrun & Hfile & Href & Hframe & _).
  exists (appendChild config (createElement "plugin")), w1.
  split_and!; done.
Defined.

(** ** Enabling and disabling *)

Lemma commaLoadVideoFromEnvironment_unset (w : World) :
  environ w !! "VIDEO_PATH" = None
  ∨ environ w !! "VIDEO_REFERENCE_CURVE" = None →
  commaLoadVideoFromEnvironment w = Normal false w.
Proof.
  intros H. unfold commaLoadVideoFromEnvironment, getenv, dir_currentPath,
    Settings.value. run.
  destruct H as [-> | ->]; [done|]. by destruct (environ w !! "VIDEO_PATH").
Qed.






(** ** The rule editor *)

Import RuleEditing.

Lemma rule_loop_ok (nodes : list QDomNode) :
  bool_decide (rule_loop nodes = None)
  = forallb rule_ok (childElements nodes).
Proof.
  induction nodes as [|n nodes IH]; [done|].
  destruct n as [e| | |]; cbn [rule_loop childElements forallb]; try done.
  unfold rule_ok at 1.
  destruct (bool_decide (tagName e = "rule")); cbn; [|done].
  destruct (hasAttribute "pattern" e); cbn; [|done].
  destruct (hasAttribute "alias" e); cbn; [|done].
  by destruct (hasAttribute "substitution" e).
Qed.

Lemma type_loop_ok (nodes : list QDomNode) :
  bool_decide (type_loop nodes = None)
  = forallb type_ok (childElements nodes).
Proof.
  induction nodes as [|n nodes IH]; [done|].
  destruct n as [e| | |]; cbn [type_loop childElements forallb]; try done.
  unfold type_ok at 1. rewrite <- rule_loop_ok.
  destruct (bool_decide (tagName e = "RosType")); cbn; [|done].
  destruct (hasAttribute "name" e); cbn; [|done].
  by destruct (rule_loop (childNodes e)).
Qed.

Lemma namedItem_no_element name (nodes : list QDomNode) :
  childElements nodes = [] → namedItem name nodes ≫= toElement = None.
Proof.
  induction nodes as [|n nodes IH]; [done|]. intros H.
  destruct n as [e| | |]; [done|..]; cbn [namedItem];
    case_bool_decide; auto.
Qed.

(** Where no top-level node other than the root element is named
    [SubstitutionRules], [isValidXml] decides the documented condition. *)
Lemma isValidXml_unshadowed (domDocument : QDomDocument) :
  well_formed domDocument = true →
  Forall (λ n, toElement n = None → nodeName n ≠ "SubstitutionRules")
    domDocument →
  fst (isValidXml (Parsed domDocument)) = valid_rules_spec (Parsed domDocument).
Proof.
  unfold well_formed. intros Hwf Hun. apply andb_prop in Hwf as [_ Hone].
  apply bool_decide_eq_true in Hone.
  destruct (childElements domDocument) as [|root [|]] eqn:Hels; try done.
  clear Hone.
  assert (namedItem "SubstitutionRules" domDocument ≫= toElement
          = (if bool_decide (tagName root = "SubstitutionRules")
             then Some root else None)
          ∧ documentElement domDocument = Some root) as [Hnamed Hroot].
  { unfold documentElement.
    induction domDocument as [|n doc IH]; [done|].
    apply Forall_cons_1 in Hun as [Hn Hun].
    destruct n as [e| | |]; cbn [childElements] in Hels.
    - injection Hels as -> Hels. split; [|done]. cbn [namedItem nodeName].
      case_bool_decide; [done|]. by apply namedItem_no_element.
    - cbn [namedItem firstElement]. rewrite bool_decide_eq_false_2 by auto.
      auto.
    - cbn [namedItem firstElement]. rewrite bool_decide_eq_false_2 by auto.
      auto.
    - cbn [namedItem firstElement]. rewrite bool_decide_eq_false_2 by auto.
      auto. }
  unfold isValidXml, valid_rules_spec. rewrite Hnamed, Hroot.
  rewrite <- type_loop_ok.
  case_bool_decide; [|done]. cbn.
  by destruct (type_loop (childNodes root)).
Qed.

(** C10, at the input where the code departs from it. The text parses, its
    root element is [<SubstitutionRules>] and all children are as required,
    yet [isValidXml] returns [false] and reports that the root node should
    be [<SubstitutionRules>]: the lookup by name stops at the processing
    instruction of the same name. *)
Theorem isValidXml_shadowed_root :
  well_formed example_shadowed_document = true
  ∧ valid_rules_spec (Parsed example_shadowed_document) = true
  ∧ isValidXml (Parsed example_shadowed_document)
    = (false, "Invalid: the root node should be <SubstitutionRules>").
Proof. split_and!; reflexivity. Qed.

(** * Further properties of video_viewer.cpp *)

(** ** The environment override *)

Lemma commaLoadVideoFromEnvironment_set_full (w : World)
    (filename curve : string) :
  environ w !! "VIDEO_PATH" = Some filename →
  environ w !! "VIDEO_REFERENCE_CURVE" = Some curve →
  ∃ w',
    commaLoadVideoFromEnvironment w = Normal true w'
    ∧ self w' = self w
    ∧ environ w' = environ w
    ∧ settings w' =
        <["VideoDialog.curve_name" := curve]>
          (<["VideoDialog.video_file" := filename]>
             (<["VideoDialog::curve_name" := curve]>
                (<["VideoDialog::video_file" := filename]>
                   (<["VideoDialog.loadDirectory" := absolutePath w filename]>
                      (<["VideoDialog::loadDirectory" :=
                           absolutePath w filename]> (settings w))))))
    ∧ calls w' =
        calls w ++ [CallPrintf ("shitshityay2" +:+ newline);
                    CallPrintf (filename +:+ tab +:+ curve +:+ newline)].
Proof.
  intros Hf Hc. unfold commaLoadVideoFromEnvironment, getenv, dir_currentPath,
    Settings.value. run. rewrite Hf, Hc.
  unfold fileinfo_absolutePath, printf, call, Settings.setValue. run.
  eexists. split_and!; try done. cbn. by rewrite <- app_assoc.
Qed.

(** X1. [commaLoadVideoFromEnvironment] returns [true] exactly when both
    [VIDEO_PATH] and [VIDEO_REFERENCE_CURVE] are set; when one of them is
    missing it changes nothing: the settings store is not written and
    nothing is printed. It never touches the plugin object. *)
Theorem commaLoadVideoFromEnvironment_gate (w : World) :
  ∃ b w',
    commaLoadVideoFromEnvironment w = Normal b w'
    ∧ (b = true ↔ is_Some (environ w !! "VIDEO_PATH")
                  ∧ is_Some (environ w !! "VIDEO_REFERENCE_CURVE"))
    ∧ (b = false → w' = w)
    ∧ self w' = self w.
Proof.
  destruct (environ w !! "VIDEO_PATH") as [filename|] eqn:Hf;
    [destruct (environ w !! "VIDEO_REFERENCE_CURVE") as [curve|] eqn:Hc|].
  - destruct (commaLoadVideoFromEnvironment_set_full w _ _ Hf Hc)
      as (w' & Hrun & Hself & _).
    exists true, w'. split_and!; [done| |done|done].
    split; [by split|done].
  - exists false, w. rewrite commaLoadVideoFromEnvironment_unset by by right.
    split_and!; [done| |done|done].
    split; [done|]. by intros [_ [? ?]].
  - exists false, w. rewrite commaLoadVideoFromEnvironment_unset by by left.
    split_and!; [done| |done|done].
    split; [done|]. by intros [[? ?] _].
Qed.

(** X2. With both variables set, [commaLoadVideoFromEnvironment] stores the
    path under [VideoDialog::video_file] and [VideoDialog.video_file], the
    curve under [VideoDialog::curve_name] and [VideoDialog.curve_name], the
    directory of the path under both [loadDirectory] keys, and leaves every
    other key of the store (the saved geometry among them) alone; a second
    call leaves the store as the first one made it. *)
Theorem commaLoadVideoFromEnvironment_store (w : World)
    (filename curve : string) :
  environ w !! "VIDEO_PATH" = Some filename →
  environ w !! "VIDEO_REFERENCE_CURVE" = Some curve →
  ∃ w' w'',
    commaLoadVideoFromEnvironment w = Normal true w'
    ∧ settings w' !! "VideoDialog::video_file" = Some filename
    ∧ settings w' !! "VideoDialog.video_file" = Some filename
    ∧ settings w' !! "VideoDialog::curve_name" = Some curve
    ∧ settings w' !! "VideoDialog.curve_name" = Some curve
    ∧ settings w' !! "VideoDialog::loadDirectory"
      = Some (absolutePath w filename)
    ∧ settings w' !! "VideoDialog.loadDirectory"
      = Some (absolutePath w filename)
    ∧ (∀ key,
         key ∉ ["VideoDialog::video_file"; "VideoDialog.video_file";
                "VideoDialog::curve_name"; "VideoDialog.curve_name";
                "VideoDialog::loadDirectory"; "VideoDialog.loadDirectory"] →
         settings w' !! key = settings w !! key)
    ∧ commaLoadVideoFromEnvironment w' = Normal true w''
    ∧ settings w'' = settings w'.
Proof.
  intros Hf Hc.
  destruct (commaLoadVideoFromEnvironment_set_full w _ _ Hf Hc)
    as (w' & Hrun & Hself & Henv & Hset & Hcalls).
  assert (absolutePath w' = absolutePath w) as Habs.
  { revert Hrun. unfold commaLoadVideoFromEnvironment, getenv,
      dir_currentPath, Settings.value. run. rewrite Hf, Hc.
    unfold fileinfo_absolutePath, printf, call, Settings.setValue. run.
    by intros [= <-]. }
  destruct (commaLoadVideoFromEnvironment_set_full w' filename curve)
    as (w'' & Hrun' & _ & _ & Hset' & _); [by rewrite Henv..|].
  exists w', w''. rewrite Hset.
  split_and!; try done; try by simplify_map_eq.
  - intros key Hkey. repeat rewrite lookup_insert_ne; [done|..];
      intros <-; apply Hkey; set_solver.
  - rewrite Hset', Habs, Hset. apply map_eq. intros key.
    destruct (decide (key = "VideoDialog.curve_name")) as [->|];
      [by simplify_map_eq|].
    destruct (decide (key = "VideoDialog.video_file")) as [->|];
      [by simplify_map_eq|].
    destruct (decide (key = "VideoDialog::curve_name")) as [->|];
      [by simplify_map_eq|].
    destruct (decide (key = "VideoDialog::video_file")) as [->|];
      [by simplify_map_eq|].
    destruct (decide (key = "VideoDialog.loadDirectory")) as [->|];
      [by simplify_map_eq|].
    destruct (decide (key = "VideoDialog::loadDirectory")) as [->|];
      [by simplify_map_eq|].
    by rewrite !lookup_insert_ne.
Qed.

Lemma commaLoadVideoFromEnvironment_store_witness :
  ∃ w' w'',
    commaLoadVideoFromEnvironment example_world_env = Normal true w'
    ∧ settings w' !! "VideoDialog::video_file" = Some "video.mp4"
    ∧ settings w' !! "VideoDialog.video_file" = Some "video.mp4"
    ∧ settings w' !! "VideoDialog::curve_name" = Some "gps"
    ∧ settings w' !! "VideoDialog.curve_name" = Some "gps"
    ∧ settings w' !! "VideoDialog::loadDirectory"
      = Some (absolutePath example_world_env "video.mp4")
    ∧ settings w' !! "VideoDialog.loadDirectory"
      = Some (absolutePath example_world_env "video.mp4")
    ∧ (∀ key,
         key ∉ ["VideoDialog::video_file"; "VideoDialog.video_file";
                "VideoDialog::curve_name"; "VideoDialog.curve_name";
                "VideoDialog::loadDirectory"; "VideoDialog.loadDirectory"] →
         settings w' !! key = settings example_world_env !! key)
    ∧ commaLoadVideoFromEnvironment w' = Normal true w''
    ∧ settings w'' = settings w'.
Proof.
  apply (commaLoadVideoFromEnvironment_store example_world_env
           "video.mp4" "gps"); reflexivity.
Defined.

(** ** Enabling, disabling and the ticks in between *)

(** [setEnabled(true)] when the stored configuration is used: the dialog
    and the calls afterwards. *)
Lemma setEnabled_true_full (w w0 : World) (useCommaVideo : bool) :
  commaLoadVideoFromEnvironment w = Normal useCommaVideo w0 →
  negb (_xml_loaded (self w0)) || useCommaVideo = true →
  let d0 := _dialog (self w0) in
  let filename := default "" (settings w0 !! "VideoDialog::video_file") in
  let curve_name := default "" (settings w0 !! "VideoDialog::curve_name") in
  let g := default "" (settings w0 !! "VideoDialog::geometry") in
  let load := negb (bool_decide (filename = lineFilename d0)) || useCommaVideo in
  ∃ w',
    setEnabled true w = Normal tt w'
    ∧ self w' =
        mkPublisherVideo
          (setHidden false
             (restoreGeometry g
                (setReference curve_name
                   (if load then loadFile filename d0 else d0))))
          (_datamap (self w0)) (_xml_loaded (self w0))
    ∧ settings w' = settings w0
    ∧ environ w' = environ w0
    ∧ calls w' =
        calls w0 ++ (if load then [CallLoadFile filename] else [])
        ++ [CallRestoreGeometry g; CallShow].
Proof.
  intros Hcomma Hguard. unfold setEnabled. run. rewrite Hcomma.
  unfold get_self. cbn. rewrite Hguard.
  unfold Settings.value, get_dialog, get_self. run.
  unfold dialog_loadFile, dialog_restoreGeometry, dialog_show, modify_dialog,
    call, get_self, put_self. run.
  destruct (negb (bool_decide (_ = lineFilename _)) || useCommaVideo);
    cbn; eexists; split_and!; try done; cbn; by rewrite <- !app_assoc.
Qed.

(** [setEnabled(true)] when the guard is closed. *)
Lemma setEnabled_true_skips (w : World) :
  _xml_loaded (self w) = true →
  environ w !! "VIDEO_PATH" = None
  ∨ environ w !! "VIDEO_REFERENCE_CURVE" = None →
  ∃ w',
    setEnabled true w = Normal tt w'
    ∧ self w' =
        mkPublisherVideo (setHidden false (_dialog (self w)))
          (_datamap (self w)) true
    ∧ settings w' = settings w
    ∧ environ w' = environ w
    ∧ calls w' = calls w ++ [CallShow].
Proof.
  intros Hxml Henv. unfold setEnabled. run.
  rewrite commaLoadVideoFromEnvironment_unset by done.
  unfold get_self. cbn. rewrite Hxml. cbn.
  unfold dialog_show, modify_dialog, call, get_self, put_self. run.
  eexists. split_and!; try done. cbn. by rewrite Hxml.
Qed.

(** [setEnabled(false)] without the environment override. *)
Lemma setEnabled_false_full (w : World) :
  environ w !! "VIDEO_PATH" = None
  ∨ environ w !! "VIDEO_REFERENCE_CURVE" = None →
  ∃ w',
    setEnabled false w = Normal tt w'
    ∧ self w' =
        mkPublisherVideo (setHidden true (_dialog (self w)))
          (_datamap (self w)) (_xml_loaded (self w))
    ∧ settings w' =
        <["VideoDialog::geometry" := geometry (_dialog (self w))]>
          (<["VideoDialog::curve_name" :=
               lineEditReference (_dialog (self w))]>
             (<["VideoDialog::video_file" := lineFilename (_dialog (self w))]>
                (settings w)))
    ∧ environ w' = environ w
    ∧ calls w' = calls w ++ [CallHide].
Proof.
  intros Henv. unfold setEnabled. run.
  rewrite commaLoadVideoFromEnvironment_unset by done.
  unfold get_dialog, get_self, Settings.setValue, dialog_hide,
    modify_dialog, call, get_self, put_self. run.
  eexists. by split_and!.
Qed.

(** X3. Once a state has been loaded from XML, and without the environment
    override, [setEnabled(true)] only shows the dialog: the settings store
    is left as it is, [loadFile] is not called, the media source path, the
    reference curve and the rest of the dialog stay as they are. *)
Theorem setEnabled_true_after_xml (w : World) :
  _xml_loaded (self w) = true →
  environ w !! "VIDEO_PATH" = None
  ∨ environ w !! "VIDEO_REFERENCE_CURVE" = None →
  ∃ w',
    setEnabled true w = Normal tt w'
    ∧ _dialog (self w') = setHidden false (_dialog (self w))
    ∧ _xml_loaded (self w') = true
    ∧ settings w' = settings w
    ∧ calls w' = calls w ++ [CallShow].
Proof.
  intros Hxml Henv.
  destruct (setEnabled_true_skips w Hxml Henv)
    as (w' & Hrun & Hself & Hset & _ & Hcalls).
  exists w'. rewrite Hself. by split_and!.
Qed.

Lemma setEnabled_true_after_xml_witness :
  ∃ w',
    setEnabled true example_world_xml_loaded = Normal tt w'
    ∧ _dialog (self w') = setHidden false example_dialog
    ∧ _xml_loaded (self w') = true
    ∧ settings w' = example_settings
    ∧ calls w' = [] ++ [CallShow].
Proof.
  apply (setEnabled_true_after_xml example_world_xml_loaded);
    [reflexivity | left; reflexivity].
Defined.

(** X4. Disabling and enabling again, with no state loaded from XML and no
    environment override, restores the dialog through the settings store:
    the media source path, the reference curve and the geometry are what
    they were, the dialog is shown, and the media file is not loaded again
    (no [loadFile] call, since the stored path is the one displayed). *)
Theorem setEnabled_off_on (w : World) :
  _xml_loaded (self w) = false →
  environ w !! "VIDEO_PATH" = None
  ∨ environ w !! "VIDEO_REFERENCE_CURVE" = None →
  ∃ w1 w2,
    setEnabled false w = Normal tt w1
    ∧ setEnabled true w1 = Normal tt w2
    ∧ _dialog (self w2) = setHidden false (_dialog (self w))
    ∧ calls w2 =
        calls w ++ [CallHide;
                    CallRestoreGeometry (geometry (_dialog (self w)));
                    CallShow].
Proof.
  intros Hxml Henv.
  destruct (setEnabled_false_full w Henv)
    as (w1 & Hrun1 & Hself1 & Hset1 & Henv1 & Hcalls1).
  destruct (setEnabled_true_full w1 w1 false)
    as (w2 & Hrun2 & Hself2 & _ & _ & Hcalls2).
  { apply commaLoadVideoFromEnvironment_unset. by rewrite Henv1. }
  { by rewrite Hself1, Hxml. }
  exists w1, w2. split_and!; [done|done| |].
  - rewrite Hself2, Hset1, Hself1. cbn [_dialog]. simplify_map_eq. cbn.
    rewrite bool_decide_eq_true_2 by done. cbn.
    destruct (_dialog (self w)) as [h p sv f r rf rt g].
    unfold restoreGeometry, setReference, setHidden. cbn.
    by destruct (bool_decide (g = "")).
  - rewrite Hcalls2, Hset1, Hself1, Hcalls1. cbn [_dialog].
    simplify_map_eq. cbn. rewrite bool_decide_eq_true_2 by done. cbn.
    by rewrite <- app_assoc.
Qed.

Lemma setEnabled_off_on_witness :
  ∃ w1 w2,
    setEnabled false example_world_fresh = Normal tt w1
    ∧ setEnabled true w1 = Normal tt w2
    ∧ _dialog (self w2) = setHidden false example_dialog
    ∧ calls w2 = [] ++ [CallHide; CallRestoreGeometry ""; CallShow].
Proof.
  apply (setEnabled_off_on example_world_fresh);
    [reflexivity | left; reflexivity].
Defined.

(** X5. With both environment variables set, [setEnabled(true)] always
    loads the file of [VIDEO_PATH] and selects the curve of
    [VIDEO_REFERENCE_CURVE]: whether or not a state was loaded from XML, and
    even when the dialog already displays that path, [loadFile] is called. *)
Theorem setEnabled_true_override (w : World) (filename curve : string) :
  environ w !! "VIDEO_PATH" = Some filename →
  environ w !! "VIDEO_REFERENCE_CURVE" = Some curve →
  ∃ w',
    setEnabled true w = Normal tt w'
    ∧ lineFilename (_dialog (self w')) = filename
    ∧ lineEditReference (_dialog (self w')) = curve
    ∧ isHidden (_dialog (self w')) = false
    ∧ calls w' =
        calls w
        ++ [CallPrintf ("shitshityay2" +:+ newline);
            CallPrintf (filename +:+ tab +:+ curve +:+ newline);
            CallLoadFile filename;
            CallRestoreGeometry
              (default "" (settings w !! "VideoDialog::geometry"));
            CallShow].
Proof.
  intros Hf Hc.
  destruct (commaLoadVideoFromEnvironment_set_full w _ _ Hf Hc)
    as (w0 & Hcomma & Hself0 & _ & Hset0 & Hcalls0).
  destruct (setEnabled_true_full w w0 true Hcomma)
    as (w' & Hrun & Hself & _ & _ & Hcalls); [apply orb_true_r|].
  exists w'. rewrite Hself, Hcalls, Hcalls0, Hset0. rewrite orb_true_r.
  simplify_map_eq. cbn. unfold restoreGeometry.
  split_and!; try done; try (by destruct (bool_decide (_ = ""))).
  by rewrite <- app_assoc.
Qed.

Lemma setEnabled_true_override_witness :
  ∃ w',
    setEnabled true
      (mkWorld (self example_world_xml_loaded) example_settings
         {[ "VIDEO_PATH" := "video.mp4"; "VIDEO_REFERENCE_CURVE" := "gps" ]}
         "/home" (λ filename, "/videos") [])
    = Normal tt w'
    ∧ lineFilename (_dialog (self w')) = "video.mp4"
    ∧ lineEditReference (_dialog (self w')) = "gps"
    ∧ isHidden (_dialog (self w')) = false
    ∧ calls w' =
        [] ++ [CallPrintf ("shitshityay2" +:+ newline);
               CallPrintf ("video.mp4" +:+ tab +:+ "gps" +:+ newline);
               CallLoadFile "video.mp4";
               CallRestoreGeometry "";
               CallShow].
Proof.
  apply (setEnabled_true_override
           (mkWorld (self example_world_xml_loaded) example_settings
              {[ "VIDEO_PATH" := "video.mp4";
                 "VIDEO_REFERENCE_CURVE" := "gps" ]}
              "/home" (λ filename, "/videos") []));
    reflexivity.
Defined.

Lemma updateState_hidden (current_time : double) (w : World) :
  isHidden (_dialog (self w)) = true →
  updateState current_time w = Normal tt w.
Proof.
  intros H. unfold updateState, get_dialog, get_self. run. by rewrite H.
Qed.

Lemma updateState_no_reference (current_time : double) (w : World) :
  referenceCurve (_dialog (self w)) = "" →
  updateState current_time w = Normal tt w.
Proof.
  intros H. unfold updateState, get_dialog, get_self. run. rewrite H.
  by destruct (isHidden (_dialog (self w))).
Qed.

Lemma setEnabled_false_hides (w : World) :
  ∃ w',
    setEnabled false w = Normal tt w'
    ∧ isHidden (_dialog (self w')) = true.
Proof.
  destruct (environ w !! "VIDEO_PATH") as [filename|] eqn:Hf;
    [destruct (environ w !! "VIDEO_REFERENCE_CURVE") as [curve|] eqn:Hc|].
  - destruct (commaLoadVideoFromEnvironment_set_full w _ _ Hf Hc)
      as (w0 & Hcomma & _).
    unfold setEnabled. run. rewrite Hcomma.
    unfold get_dialog, get_self, Settings.setValue, dialog_hide,
      modify_dialog, call, get_self, put_self. run. by eexists.
  - destruct (setEnabled_false_full w) as (w' & Hrun & Hself & _);
      [by right|]. exists w'. by rewrite Hself.
  - destruct (setEnabled_false_full w) as (w' & Hrun & Hself & _);
      [by left|]. exists w'. by rewrite Hself.
Qed.

(** X6. Enabling with a settings store that holds no
    [VideoDialog::curve_name] (no state loaded from XML, no environment
    override) leaves the reference curve empty: the synchroniser is not
    active and the following tick does nothing at all. *)
Theorem setEnabled_true_empty_store (current_time : double) (w : World) :
  settings w !! "VideoDialog::curve_name" = None →
  _xml_loaded (self w) = false →
  environ w !! "VIDEO_PATH" = None
  ∨ environ w !! "VIDEO_REFERENCE_CURVE" = None →
  ∃ w',
    setEnabled true w = Normal tt w'
    ∧ lineEditReference (_dialog (self w')) = ""
    ∧ isActive (self w') = false
    ∧ updateState current_time w' = Normal tt w'.
Proof.
  intros Hkey Hxml Henv.
  destruct (setEnabled_true_full w w false)
    as (w' & Hrun & Hself & _);
    [by apply commaLoadVideoFromEnvironment_unset | by rewrite Hxml |].
  assert (lineEditReference (_dialog (self w')) = "") as Href.
  { rewrite Hself, Hkey. cbn. unfold restoreGeometry.
    by destruct (bool_decide (_ = "")). }
  exists w'. split_and!; [done|done| |].
  - unfold isActive, referenceCurve. rewrite Href.
    apply andb_false_r.
  - by apply updateState_no_reference.
Qed.

Lemma setEnabled_true_empty_store_witness :
  ∃ w',
    setEnabled true example_world = Normal tt w'
    ∧ lineEditReference (_dialog (self w')) = ""
    ∧ isActive (self w') = false
    ∧ updateState (frac 1 2) w' = Normal tt w'.
Proof.
  apply (setEnabled_true_empty_store (frac 1 2) example_world);
    [reflexivity | reflexivity | left; reflexivity].
Defined.

(** X7. After [setEnabled(false)] a tick does nothing: the dialog is
    hidden, so [updateState] makes no lookup, no pause and no seek, whatever
    the series and the time. *)
Theorem setEnabled_false_stops_ticks (current_time : double) (w : World) :
  ∃ w',
    setEnabled false w = Normal tt w'
    ∧ isActive (self w') = false
    ∧ updateState current_time w' = Normal tt w'.
Proof.
  destruct (setEnabled_false_hides w) as (w' & Hrun & Hhidden).
  exists w'. split_and!; [done| |by apply updateState_hidden].
  unfold isActive. by rewrite Hhidden.
Qed.

(** X8. [updateState] never throws (the value of the sample is read only
    when there is one) and acts on the playback alone: the settings store,
    the series repository, the [_xml_loaded] flag, the visibility, the media
    source path, the reference curve, the radio buttons and the geometry
    are after the tick what they were before. *)
Theorem updateState_keeps_configuration (current_time : double) (w : World) :
  ∃ w',
    updateState current_time w = Normal tt w'
    ∧ settings w' = settings w
    ∧ environ w' = environ w
    ∧ _datamap (self w') = _datamap (self w)
    ∧ _xml_loaded (self w') = _xml_loaded (self w)
    ∧ hidden (_dialog (self w')) = hidden (_dialog (self w))
    ∧ lineFilename (_dialog (self w')) = lineFilename (_dialog (self w))
    ∧ lineEditReference (_dialog (self w'))
      = lineEditReference (_dialog (self w))
    ∧ radioButtonFrame (_dialog (self w'))
      = radioButtonFrame (_dialog (self w))
    ∧ radioButtonTime (_dialog (self w')) = radioButtonTime (_dialog (self w))
    ∧ geometry (_dialog (self w')) = geometry (_dialog (self w)).
Proof.
  unfold updateState, get_dialog, get_self. run.
  destruct (isHidden (_dialog (self w))); [by exists w|].
  case_bool_decide; [by exists w|].
  unfold datamap_find, data_getYfromX, call, get_self. run.
  destruct (_datamap (self w) !! referenceCurve (_dialog (self w)))
    as [data|]; cbn; [|by eexists].
  destruct (getYfromX data current_time) as [v|]; cbn; [|by eexists].
  unfold dialog_pause, dialog_seekByValue, modify_dialog, call, get_self,
    put_self. run.
  destruct (isPaused (_dialog (self w))); cbn; by eexists.
Qed.

(** ** Loading a saved state *)

Lemma firstElement_app_found tag (l l' : list QDomNode) (e : QDomElement) :
  firstElement tag l = Some e → firstElement tag (l ++ l') = Some e.
Proof.
  induction l as [|n l IH]; [done|]. cbn [app firstElement].
  destruct n as [e'| | |]; try done.
  by destruct (bool_decide (tag = "") || bool_decide (tagName e' = tag)).
Qed.

(** A successful [xmlLoadState], component by component. *)
Lemma xmlLoadState_full (parent_element config : QDomElement) (w : World) :
  firstChildElement "config" parent_element = Some config →
  ∃ w',
    xmlLoadState parent_element w = Normal true w'
    ∧ self w' =
        mkPublisherVideo
          ((if bool_decide (attribute "use_frame" config = "true")
            then checkFrame else checkTime)
             (setReference (attribute "curve_name" config)
                (loadFile (attribute "video_file" config)
                   (_dialog (self w)))))
          (_datamap (self w)) true
    ∧ settings w' = settings w
    ∧ environ w' = environ w
    ∧ calls w' = calls w ++ [CallLoadFile (attribute "video_file" config)].
Proof.
  intros Hconfig. unfold xmlLoadState. rewrite Hconfig.
  unfold dialog_loadFile, modify_dialog, set_xml_loaded, call, get_self,
    put_self. run.
  destruct (bool_decide (attribute "use_frame" config = "true")); cbn;
    by eexists.
Qed.

(** X9. When the parent has a [config] child, [xmlLoadState] returns [true],
    hands the [video_file] attribute to [loadFile], makes [curve_name] the
    reference curve, checks the frame button exactly when [use_frame] is the
    string [true] (the time button for any other value) and marks the state
    as loaded from XML. It does not show the dialog, does not touch the
    playback state, the geometry or the settings store. *)
Theorem xmlLoadState_effect (parent_element config : QDomElement)
    (w : World) :
  firstChildElement "config" parent_element = Some config →
  ∃ w',
    xmlLoadState parent_element w = Normal true w'
    ∧ lineFilename (_dialog (self w')) = attribute "video_file" config
    ∧ lineEditReference (_dialog (self w')) = attribute "curve_name" config
    ∧ radioButtonFrame (_dialog (self w'))
      = bool_decide (attribute "use_frame" config = "true")
    ∧ radioButtonTime (_dialog (self w'))
      = negb (bool_decide (attribute "use_frame" config = "true"))
    ∧ _xml_loaded (self w') = true
    ∧ hidden (_dialog (self w')) = hidden (_dialog (self w))
    ∧ paused (_dialog (self w')) = paused (_dialog (self w))
    ∧ seek_value (_dialog (self w')) = seek_value (_dialog (self w))
    ∧ geometry (_dialog (self w')) = geometry (_dialog (self w))
    ∧ settings w' = settings w
    ∧ calls w' = calls w ++ [CallLoadFile (attribute "video_file" config)].
Proof.
  intros Hconfig.
  destruct (xmlLoadState_full _ _ w Hconfig)
    as (w' & Hrun & Hself & Hset & _ & Hcalls).
  exists w'. rewrite Hself.
  destruct (bool_decide (attribute "use_frame" config = "true"));
    by split_and!.
Qed.

Lemma xmlLoadState_effect_witness :
  ∃ w',
    xmlLoadState
      (mkQDomElement "plugin" ∅
         [CommentNode "layout";
          ElementNode
            (mkQDomElement "config"
               {[ "video_file" := "ride.mp4"; "use_frame" := "True" ]} [])])
      example_world
    = Normal true w'
    ∧ lineFilename (_dialog (self w')) = "ride.mp4"
    ∧ lineEditReference (_dialog (self w')) = ""
    ∧ radioButtonFrame (_dialog (self w')) = false
    ∧ radioButtonTime (_dialog (self w')) = true
    ∧ _xml_loaded (self w') = true
    ∧ calls w' = [CallLoadFile "ride.mp4"].
Proof.
  destruct (xmlLoadState_effect
              (mkQDomElement "plugin" ∅
                 [CommentNode "layout";
                  ElementNode
                    (mkQDomElement "config"
                       {[ "video_file" := "ride.mp4"; "use_frame" := "True" ]}
                       [])])
              (mkQDomElement "config"
                 {[ "video_file" := "ride.mp4"; "use_frame" := "True" ]} [])
              example_world eq_refl)
    as (w' & Hrun & Hfile & Hcurve & Hframe & Htime & Hxml & _ & _ & _ & _
        & _ & Hcalls).
  exists w'. split_and!; [exact Hrun| | | | |exact Hxml|].
  - rewrite Hfile. reflexivity.
  - rewrite Hcurve. reflexivity.
  - rewrite Hframe. reflexivity.
  - rewrite Htime. reflexivity.
  - rewrite Hcalls. reflexivity.
Defined.

(** X10. A [config] element without a [curve_name] attribute makes the
    reference curve empty: after the load the synchroniser is not active
    and a tick does nothing, whatever reference was selected before. *)
Theorem xmlLoadState_without_curve (current_time : double)
    (parent_element config : QDomElement) (w : World) :
  firstChildElement "config" parent_element = Some config →
  attributes config !! "curve_name" = None →
  ∃ w',
    xmlLoadState parent_element w = Normal true w'
    ∧ lineEditReference (_dialog (self w')) = ""
    ∧ isActive (self w') = false
    ∧ updateState current_time w' = Normal tt w'.
Proof.
  intros Hconfig Hcurve.
  destruct (xmlLoadState_full _ _ w Hconfig) as (w' & Hrun & Hself & _).
  assert (lineEditReference (_dialog (self w')) = "") as Href.
  { rewrite Hself. unfold attribute. rewrite Hcurve.
    by destruct (bool_decide (_ = "true")). }
  exists w'. split_and!; [done|done| |by apply updateState_no_reference].
  unfold isActive, referenceCurve. rewrite Href. apply andb_false_r.
Qed.

Lemma xmlLoadState_without_curve_witness :
  ∃ w',
    xmlLoadState
      (mkQDomElement "plugin" ∅ [ElementNode (createElement "config")])
      example_world
    = Normal true w'
    ∧ lineEditReference (_dialog (self w')) = ""
    ∧ isActive (self w') = false
    ∧ updateState (frac 1 2) w' = Normal tt w'.
Proof.
  apply (xmlLoadState_without_curve (frac 1 2)
           (mkQDomElement "plugin" ∅ [ElementNode (createElement "config")])
           (createElement "config") example_world);
    reflexivity.
Defined.

(** X11. [xmlLoadState] reads the first [config] child only. Saving twice
    into the same parent element therefore does not replace the saved
    state: a load from that parent restores what the first save wrote, not
    the second. *)
Theorem xmlSaveState_twice (parent_element : QDomElement)
    (w_first w_second w : World) :
  firstChildElement "config" parent_element = None →
  ∃ saved_once saved_twice w',
    xmlSaveState parent_element w_first = Normal (true, saved_once) w_first
    ∧ xmlSaveState saved_once w_second = Normal (true, saved_twice) w_second
    ∧ length (childNodes saved_twice)
      = S (S (length (childNodes parent_element)))
    ∧ xmlLoadState saved_twice w = Normal true w'
    ∧ lineFilename (_dialog (self w'))
      = lineFilename (_dialog (self w_first))
    ∧ lineEditReference (_dialog (self w'))
      = lineEditReference (_dialog (self w_first))
    ∧ radioButtonFrame (_dialog (self w'))
      = radioButtonFrame (_dialog (self w_first)).
Proof.
  intros Hnone.
  set (config :=
         setAttribute "use_frame"
           (if radioButtonFrame (_dialog (self w_first))
            then "true" else "false")
           (setAttribute "curve_name"
              (lineEditReference (_dialog (self w_first)))
              (setAttribute "video_file"
                 (lineFilename (_dialog (self w_first)))
                 (createElement "config")))).
  set (config' :=
         setAttribute "use_frame"
           (if radioButtonFrame (_dialog (self w_second))
            then "true" else "false")
           (setAttribute "curve_name"
              (lineEditReference (_dialog (self w_second)))
              (setAttribute "video_file"
                 (lineFilename (_dialog (self w_second)))
                 (createElement "config")))).
  assert (firstChildElement "config"
            (appendChild config' (appendChild config parent_element))
          = Some config) as Hfirst.
  { unfold firstChildElement, appendChild in *. cbn [childNodes].
    apply firstElement_app_found. by rewrite firstElement_app. }
  destruct (xmlLoadState_full _ _ w Hfirst) as (w' & Hrun & Hself & _).
  exists (appendChild config parent_element),
    (appendChild config' (appendChild config parent_element)), w'.
  split; [reflexivity|]. split; [reflexivity|].
  split; [cbn; rewrite !length_app; cbn; lia|].
  split; [exact Hrun|]. rewrite Hself. subst config.
  destruct (radioButtonFrame (_dialog (self w_first))); by split_and!.
Qed.

Lemma xmlSaveState_twice_witness :
  ∃ saved_once saved_twice w',
    xmlSaveState (createElement "plugin") example_world
    = Normal (true, saved_once) example_world
    ∧ xmlSaveState saved_once example_world_xml_loaded
      = Normal (true, saved_twice) example_world_xml_loaded
    ∧ length (childNodes saved_twice) = 2%nat
    ∧ xmlLoadState saved_twice example_world_fresh = Normal true w'
    ∧ lineFilename (_dialog (self w')) = "video.mp4"
    ∧ lineEditReference (_dialog (self w')) = "speed"
    ∧ radioButtonFrame (_dialog (self w')) = true.
Proof.
  apply (xmlSaveState_twice (createElement "plugin") example_world
           example_world_xml_loaded example_world_fresh).
  reflexivity.
Defined.

(** X12. A state loaded from XML survives [setEnabled(true)]: without the
    environment override, enabling after a successful [xmlLoadState] shows
    the dialog with the media source path and the reference curve of the
    [config] element, whatever the settings store holds; the store is
    neither read into the dialog nor written. *)
Theorem xmlLoadState_then_setEnabled (parent_element config : QDomElement)
    (w : World) :
  firstChildElement "config" parent_element = Some config →
  environ w !! "VIDEO_PATH" = None
  ∨ environ w !! "VIDEO_REFERENCE_CURVE" = None →
  ∃ w1 w2,
    xmlLoadState parent_element w = Normal true w1
    ∧ setEnabled true w1 = Normal tt w2
    ∧ lineFilename (_dialog (self w2)) = attribute "video_file" config
    ∧ lineEditReference (_dialog (self w2)) = attribute "curve_name" config
    ∧ isHidden (_dialog (self w2)) = false
    ∧ settings w2 = settings w
    ∧ calls w2
      = calls w ++ [CallLoadFile (attribute "video_file" config); CallShow].
Proof.
  intros Hconfig Henv.
  destruct (xmlLoadState_full _ _ w Hconfig)
    as (w1 & Hrun1 & Hself1 & Hset1 & Henv1 & Hcalls1).
  destruct (setEnabled_true_skips w1)
    as (w2 & Hrun2 & Hself2 & Hset2 & _ & Hcalls2);
    [by rewrite Hself1 | by rewrite Henv1 |].
  exists w1, w2. rewrite Hself2, Hset2, Hcalls2, Hself1, Hset1, Hcalls1.
  cbn. rewrite <- app_assoc.
  destruct (bool_decide (attribute "use_frame" config = "true"));
    by split_and!.
Qed.

Lemma xmlLoadState_then_setEnabled_witness :
  ∃ w1 w2,
    xmlLoadState example_layout example_world_fresh = Normal true w1
    ∧ setEnabled true w1 = Normal tt w2
    ∧ lineFilename (_dialog (self w2)) = "ride.mp4"
    ∧ lineEditReference (_dialog (self w2)) = "gps"
    ∧ isHidden (_dialog (self w2)) = false
    ∧ settings w2 = example_settings
    ∧ calls w2 = [CallLoadFile "ride.mp4"; CallShow].
Proof.
  destruct (xmlLoadState_then_setEnabled example_layout example_config
              example_world_fresh eq_refl (or_introl eq_refl))
    as (w1 & w2 & Hrun1 & Hrun2 & Hfile & Hcurve & Hshown & Hset & Hcalls).
  exists w1, w2.
  split_and!; [exact Hrun1|exact Hrun2| | |exact Hshown|exact Hset|].
  - rewrite Hfile. reflexivity.
  - rewrite Hcurve. reflexivity.
  - rewrite Hcalls. reflexivity.
Defined.

(** * Further properties of the rule editor *)

Import RuleEditingDialog.

(** What [isValidXml] writes in the label tells its result. *)
Lemma isValidXml_label (parsed : ParseResult) :
  fst (isValidXml parsed) = true ↔ snd (isValidXml parsed) = "Valid".
Proof.
  unfold isValidXml. destruct parsed as [errorStr|domDocument]; cbn.
  - split; intros H; discriminate H.
  - destruct (namedItem "SubstitutionRules" domDocument ≫= toElement)
      as [root|]; cbn.
    + destruct (type_loop (childNodes root)); cbn; [|done].
      split; intros H; discriminate H.
    + split; intros H; discriminate H.
Qed.

(** X13. After [on_timer] the Save button is enabled exactly when the label
    reads [Valid], that is exactly when [isValidXml] accepts the text of the
    editor; a text that does not parse disables the button and shows the
    parser's message. The timer changes neither the text nor the window. *)
Theorem on_timer_save_button (setContent : string → ParseResult)
    (ed : RuleEditing) :
  (pushButtonSave_enabled (on_timer setContent ed) = true
   ↔ labelValidSyntax (on_timer setContent ed) = "Valid")
  ∧ pushButtonSave_enabled (on_timer setContent ed)
    = fst (isValidXml (setContent (textEdit ed)))
  ∧ (∀ errorStr,
       setContent (textEdit ed) = ParseError errorStr →
       pushButtonSave_enabled (on_timer setContent ed) = false
       ∧ labelValidSyntax (on_timer setContent ed)
         = "Invalid XML: " +:+ errorStr)
  ∧ textEdit (on_timer setContent ed) = textEdit ed
  ∧ window_geometry (on_timer setContent ed) = window_geometry ed
  ∧ window_open (on_timer setContent ed) = window_open ed.
Proof.
  pose proof (isValidXml_label (setContent (textEdit ed))) as Hlabel.
  unfold on_timer, isValidXml_method.
  destruct (isValidXml (setContent (textEdit ed))) as [valid label] eqn:E.
  cbn in *. split_and!; try done.
  intros errorStr Herr. rewrite Herr in E. cbn in E. by injection E as <- <-.
Qed.

Lemma on_timer_save_button_witness :
  pushButtonSave_enabled
    (on_timer (λ text, ParseError "unexpected end of file")
       (mkRuleEditing "<SubstitutionRules>" "" true "" true))
  = false
  ∧ labelValidSyntax
      (on_timer (λ text, ParseError "unexpected end of file")
         (mkRuleEditing "<SubstitutionRules>" "" true "" true))
    = "Invalid XML: " +:+ "unexpected end of file".
Proof.
  destruct (on_timer_save_button
              (λ text, ParseError "unexpected end of file")
              (mkRuleEditing "<SubstitutionRules>" "" true "" true))
    as (_ & _ & Herr & _).
  apply Herr. reflexivity.
Defined.

(** X14. The text saved with the Save button is the text the editor shows
    when the dialog is built again, and the window comes back with the
    geometry it had (when it had one); Save closes the window and writes no
    key of the store but [RuleEditing.text] and [RuleEditing.geometry]. *)
Theorem save_then_reopen (ed ui : RuleEditing)
    (settings : gmap string string) :
  window_open (fst (on_pushButtonSave_pressed (ed, settings))) = false
  ∧ textEdit
      (fst (construct ui (snd (on_pushButtonSave_pressed (ed, settings)))))
    = textEdit ed
  ∧ (window_geometry ed ≠ "" →
     window_geometry
       (fst (construct ui (snd (on_pushButtonSave_pressed (ed, settings)))))
     = window_geometry ed)
  ∧ (∀ key,
       key ≠ "RuleEditing.text" → key ≠ "RuleEditing.geometry" →
       snd (on_pushButtonSave_pressed (ed, settings)) !! key
       = settings !! key).
Proof.
  unfold construct, on_pushButtonPrevious_pressed, on_pushButtonSave_pressed,
    close, closeEvent, restoreGeometry. cbn.
  split_and!; [done| | |].
  - by simplify_map_eq.
  - intros Hgeo. simplify_map_eq. cbn.
    by rewrite bool_decide_eq_false_2.
  - intros key H1 H2. by simplify_map_eq.
Qed.

Lemma save_then_reopen_witness :
  window_geometry
    (fst (construct (mkRuleEditing "" "" true "" false)
            (snd (on_pushButtonSave_pressed
                    (mkRuleEditing "<SubstitutionRules/>" "Valid" true
                       "geometry-bytes" true,
                     {[ "RuleEditing.text" := DEFAULT ]})))))
  = "geometry-bytes"
  ∧ snd (on_pushButtonSave_pressed
           (mkRuleEditing "<SubstitutionRules/>" "Valid" true
              "geometry-bytes" true,
            {[ "RuleEditing.text" := DEFAULT ]}))
    !! "VideoDialog::video_file"
    = ({[ "RuleEditing.text" := DEFAULT ]} : gmap string string)
      !! "VideoDialog::video_file".
Proof.
  destruct (save_then_reopen
              (mkRuleEditing "<SubstitutionRules/>" "Valid" true
                 "geometry-bytes" true)
              (mkRuleEditing "" "" true "" false)
              {[ "RuleEditing.text" := DEFAULT ]})
    as (_ & _ & Hgeo & Hkeys).
  split; [by apply Hgeo | by apply Hkeys].
Defined.

(** X15. Cancel discards the edits: the stored rules are left as they
    were, and the dialog built next shows the text stored before, or
    [DEFAULT] when none was ever stored. The geometry is stored all the
    same. *)
Theorem cancel_then_reopen (ed ui : RuleEditing)
    (settings : gmap string string) :
  snd (on_pushButtonCancel_pressed (ed, settings)) !! "RuleEditing.text"
  = settings !! "RuleEditing.text"
  ∧ snd (on_pushButtonCancel_pressed (ed, settings)) !! "RuleEditing.geometry"
    = Some (window_geometry ed)
  ∧ textEdit
      (fst (construct ui (snd (on_pushButtonCancel_pressed (ed, settings)))))
    = default DEFAULT (settings !! "RuleEditing.text").
Proof.
  unfold construct, on_pushButtonPrevious_pressed,
    on_pushButtonCancel_pressed, close, closeEvent. cbn.
  split_and!; [by simplify_map_eq..|].
  rewrite lookup_insert_ne by done.
  by destruct (settings !! "RuleEditing.text").
Qed.

Lemma forallb_true_Forall {A} (f : A → bool) (l : list A) :
  forallb f l = true ↔ Forall (λ x, f x = true) l.
Proof.
  induction l as [|x l IH]; cbn; [by split|].
  rewrite andb_true_iff, IH. split.
  - intros [? ?]. by constructor.
  - intros Hall. by inversion_clear Hall.
Qed.

Lemma rule_ok_spec (e : QDomElement) :
  rule_ok e = true
  ↔ tagName e = "rule"
    ∧ is_Some (attributes e !! "pattern")
    ∧ is_Some (attributes e !! "alias")
    ∧ is_Some (attributes e !! "substitution").
Proof.
  unfold rule_ok, hasAttribute. rewrite !andb_true_iff, !bool_decide_eq_true.
  tauto.
Qed.

Lemma type_ok_spec (e : QDomElement) :
  type_ok e = true
  ↔ tagName e = "RosType"
    ∧ is_Some (attributes e !! "name")
    ∧ Forall (λ rule_el,
                tagName rule_el = "rule"
                ∧ is_Some (attributes rule_el !! "pattern")
                ∧ is_Some (attributes rule_el !! "alias")
                ∧ is_Some (attributes rule_el !! "substitution"))
        (childElements (childNodes e)).
Proof.
  unfold type_ok, hasAttribute.
  rewrite !andb_true_iff, !bool_decide_eq_true, forallb_true_Forall.
  split.
  - intros [[Htag Hname] Hall]. split_and!; [done|done|].
    eapply List.Forall_impl; [|exact Hall].
    intros x. by rewrite rule_ok_spec.
  - intros (Htag & Hname & Hall). split_and!; [done|done|].
    eapply List.Forall_impl; [|exact Hall].
    intros x. by rewrite rule_ok_spec.
Qed.

(** X16. For a parsed document with a single root element and no other
    top-level node named [SubstitutionRules], [isValidXml] returns [true]
    exactly when the root element is named [SubstitutionRules], each of its
    child elements is a [RosType] with a [name] attribute, and each child
    element of a [RosType] is a [rule] with the attributes [pattern],
    [alias] and [substitution]. Text and comments between the elements,
    further attributes (a [timestamp]) and the attribute values play no
    part. *)
Theorem isValidXml_decides (domDocument : QDomDocument) :
  well_formed domDocument = true →
  Forall (λ n, toElement n = None → nodeName n ≠ "SubstitutionRules")
    domDocument →
  fst (isValidXml (Parsed domDocument)) = true
  ↔ ∃ root,
      documentElement domDocument = Some root
      ∧ tagName root = "SubstitutionRules"
      ∧ Forall
          (λ type_el,
             tagName type_el = "RosType"
             ∧ is_Some (attributes type_el !! "name")
             ∧ Forall
                 (λ rule_el,
                    tagName rule_el = "rule"
                    ∧ is_Some (attributes rule_el !! "pattern")
                    ∧ is_Some (attributes rule_el !! "alias")
                    ∧ is_Some (attributes rule_el !! "substitution"))
                 (childElements (childNodes type_el)))
          (childElements (childNodes root)).
Proof.
  intros Hwf Hun. rewrite isValidXml_unshadowed by done.
  unfold valid_rules_spec.
  destruct (documentElement domDocument) as [root|]; cbn.
  - rewrite andb_true_iff, bool_decide_eq_true, forallb_true_Forall. split.
    + intros [Hname Hall]. exists root. split_and!; [done|done|].
      eapply List.Forall_impl; [|exact Hall].
      intros x. by rewrite type_ok_spec.
    + intros (root' & [= <-] & Hname & Hall). split; [done|].
      eapply List.Forall_impl; [|exact Hall].
      intros x. by rewrite type_ok_spec.
  - split; [done|]. by intros (root & ? & _).
Qed.

Lemma isValidXml_decides_witness :
  fst (isValidXml (Parsed example_rules_document)) = true
  ↔ ∃ root,
      documentElement example_rules_document = Some root
      ∧ tagName root = "SubstitutionRules"
      ∧ Forall
          (λ type_el,
             tagName type_el = "RosType"
             ∧ is_Some (attributes type_el !! "name")
             ∧ Forall
                 (λ rule_el,
                    tagName rule_el = "rule"
                    ∧ is_Some (attributes rule_el !! "pattern")
                    ∧ is_Some (attributes rule_el !! "alias")
                    ∧ is_Some (attributes rule_el !! "substitution"))
                 (childElements (childNodes type_el)))
          (childElements (childNodes root)).
Proof.
  apply (isValidXml_decides example_rules_document); [reflexivity|].
  unfold example_rules_document.
  apply List.Forall_cons; [intros _; discriminate|].
  apply List.Forall_cons; [discriminate|].
  apply List.Forall_nil.
Defined.

(** * Properties of the syntax highlighter *)

Import XMLSyntaxHighlighter.

Lemma lookup_setFormat (start count : nat) (format : QTextCharFormat)
    (formats : list QTextCharFormat) (i : nat) :
  setFormat start count format formats !! i
  = (λ f, if bool_decide (start ≤ i < start + count)%nat then format else f)
      <$> formats !! i.
Proof. unfold setFormat. by rewrite list_lookup_imap. Qed.

Lemma length_setFormat (start count : nat) (format : QTextCharFormat)
    (formats : list QTextCharFormat) :
  length (setFormat start count format formats) = length formats.
Proof. unfold setFormat. by rewrite length_imap. Qed.

Lemma lookup_setFormat_ranges (format : QTextCharFormat)
    (ranges : list (nat * nat)) (formats : list QTextCharFormat) (i : nat) :
  foldl (λ fs r, setFormat (fst r) (snd r) format fs) formats ranges !! i
  = (λ f, if covered ranges i then format else f) <$> formats !! i.
Proof.
  revert formats. induction ranges as [|r ranges IH]; intros formats; cbn.
  - by destruct (formats !! i).
  - rewrite IH, lookup_setFormat. destruct (formats !! i) as [f|]; [|done].
    cbn. f_equal.
    destruct (bool_decide (fst r ≤ i < fst r + snd r)%nat); cbn; [|done].
    by destruct (covered ranges i).
Qed.

Lemma length_setFormat_ranges (format : QTextCharFormat)
    (ranges : list (nat * nat)) (formats : list QTextCharFormat) :
  length (foldl (λ fs r, setFormat (fst r) (snd r) format fs) formats ranges)
  = length formats.
Proof.
  revert formats. induction ranges as [|r ranges IH]; intros formats; cbn;
    [done|]. by rewrite IH, length_setFormat.
Qed.

Section EngineFacts.

Variable regexp : string → string → nat → option Match.

(** A loop formats the ranges that [scan] lists, one after the other. *)
Lemma highlight_loop_scan (part : Match → nat * nat) (fuel : nat)
    (format : QTextCharFormat) (regex text : string) (offset : nat)
    (formats : list QTextCharFormat) :
  highlight_loop regexp part fuel format regex text offset formats
  = foldl (λ fs r, setFormat (fst r) (snd r) format fs) formats
      <$> scan regexp part fuel regex text offset.
Proof.
  revert offset formats. induction fuel as [|fuel IH]; intros offset formats;
    cbn; [done|].
  destruct (regexp regex text offset) as [m|]; [|done].
  destruct (part m) as [matchedPos matchedLength] eqn:Hpart. cbn.
  rewrite IH.
  by destruct (scan regexp part fuel regex text (matchedPos + matchedLength)).
Qed.

(** With a well-behaved engine the scan ends within [length text + 1]
    searches, and its ranges follow one another inside the text. *)
Lemma scan_terminates (part : Match → nat * nat) (regex text : string)
    (fuel offset : nat) :
  well_behaved regexp part regex text →
  (String.length text - offset < fuel)%nat →
  ∃ ranges,
    scan regexp part fuel regex text offset = Some ranges
    ∧ ascending offset ranges
    ∧ Forall (λ r, (0 < snd r ∧ fst r + snd r ≤ String.length text)%nat)
        ranges.
Proof.
  intros Hwb. revert offset.
  induction fuel as [|fuel IH]; intros offset Hfuel; [lia|]. cbn.
  destruct (regexp regex text offset) as [m|] eqn:Hm; [|by exists []].
  destruct (Hwb _ _ Hm) as (Hge & Hpos & Hle).
  destruct (IH (fst (part m) + snd (part m))%nat) as (ranges & -> & Hasc & Hall);
    [lia|].
  exists (part m :: ranges). cbn. split_and!; [done|done|done|].
  by constructor.
Qed.

End EngineFacts.

(** X17. [highlightByRegex] ends on every text when the engine never
    reports an empty match (and reports matches at or after the offset,
    inside the text): [length text + 1] searches are enough. The matches it
    formats follow one another without overlap, every character inside one
    of them gets the format, every other character keeps the format it
    had. *)
Theorem highlightByRegex_formats
    (regexp : string → string → nat → option Match)
    (format : QTextCharFormat) (regex text : string)
    (formats : list QTextCharFormat) (fuel : nat) :
  well_behaved regexp whole_match regex text →
  (String.length text < fuel)%nat →
  ∃ ranges formats',
    scan regexp whole_match fuel regex text 0 = Some ranges
    ∧ ascending 0 ranges
    ∧ Forall (λ r, (0 < snd r ∧ fst r + snd r ≤ String.length text)%nat)
        ranges
    ∧ highlightByRegex regexp fuel format regex text formats = Some formats'
    ∧ length formats' = length formats
    ∧ ∀ i,
        formats' !! i
        = (λ f, if covered ranges i then format else f) <$> formats !! i.
Proof.
  intros Hwb Hfuel.
  destruct (scan_terminates regexp whole_match regex text fuel 0 Hwb)
    as (ranges & Hscan & Hasc & Hall); [lia|].
  exists ranges. eexists. split_and!; [done|done|done| | |].
  - unfold highlightByRegex. rewrite highlight_loop_scan, Hscan. done.
  - apply length_setFormat_ranges.
  - intros i. apply lookup_setFormat_ranges.
Qed.

Lemma find_char_bounds (c : Ascii.ascii) (text : string) (offset i : nat) :
  find_char c text offset = Some i →
  (offset ≤ i < String.length text)%nat.
Proof.
  revert offset i. induction text as [|a rest IH]; intros offset i; cbn;
    [done|].
  destruct offset as [|offset].
  - destruct (Ascii.eqb a c); [intros [= <-]; lia|].
    destruct (find_char c rest 0) as [k|] eqn:Hk; [|done].
    intros [= <-]. apply IH in Hk. lia.
  - destruct (find_char c rest offset) as [k|] eqn:Hk; [|done].
    intros [= <-]. apply IH in Hk. lia.
Qed.

Lemma char_engine_well_behaved (part : Match → nat * nat)
    (regex text : string) :
  part = whole_match ∨ part = first_capture →
  well_behaved char_engine part regex text.
Proof.
  intros Hpart offset m. unfold char_engine.
  destruct regex as [|c [|]]; try done.
  destruct (find_char c text offset) as [i|] eqn:Hi; [|done].
  intros [= <-]. apply find_char_bounds in Hi.
  destruct Hpart as [-> | ->]; cbn; lia.
Qed.

Lemma highlightByRegex_formats_witness :
  ∃ ranges formats',
    scan char_engine whole_match 6 ">" "<a><b" 0 = Some ranges
    ∧ ascending 0 ranges
    ∧ Forall (λ r, (0 < snd r ∧ fst r + snd r ≤ String.length "<a><b")%nat)
        ranges
    ∧ highlightByRegex char_engine 6 _xmlKeywordFormat ">" "<a><b"
        (replicate 5 QTextCharFormat_default)
      = Some formats'
    ∧ length formats' = length (replicate 5 QTextCharFormat_default)
    ∧ ∀ i,
        formats' !! i
        = (λ f, if covered ranges i then _xmlKeywordFormat else f)
            <$> replicate 5 QTextCharFormat_default !! i.
Proof.
  apply (highlightByRegex_formats char_engine _xmlKeywordFormat ">" "<a><b"
           (replicate 5 QTextCharFormat_default) 6).
  - apply char_engine_well_behaved. by left.
  - cbn. lia.
Defined.

Section BlockFacts.

Variable regexp : string → string → nat → option Match.

Lemma highlightKeywords_scan (fuel : nat) (regexes : list string)
    (text : string) (keywords : list (list (nat * nat)))
    (formats : list QTextCharFormat) :
  Forall2 (λ regex ranges,
             scan regexp whole_match fuel regex text 0 = Some ranges)
    regexes keywords →
  highlightKeywords regexp fuel regexes text formats
  = Some (foldl (λ fs r, setFormat (fst r) (snd r) _xmlKeywordFormat fs)
            formats (concat keywords)).
Proof.
  intros H. revert formats.
  induction H as [|regex ranges regexes keywords Hscan _ IH]; intros formats;
    cbn; [done|].
  unfold highlightByRegex. rewrite highlight_loop_scan, Hscan. cbn.
  by rewrite IH, foldl_app.
Qed.

Lemma scan_all_terminate (fuel : nat) (regexes : list string)
    (text : string) :
  Forall (λ regex, well_behaved regexp whole_match regex text) regexes →
  (String.length text < fuel)%nat →
  ∃ keywords,
    Forall2 (λ regex ranges,
               scan regexp whole_match fuel regex text 0 = Some ranges)
      regexes keywords.
Proof.
  intros Hall Hfuel. induction Hall as [|regex regexes Hwb _ [keywords IH]].
  - by exists [].
  - destruct (scan_terminates regexp whole_match regex text fuel 0 Hwb)
      as (ranges & Hscan & _); [lia|].
    exists (ranges :: keywords). by constructor.
Qed.

End BlockFacts.

(** X18. With a well-behaved engine [highlightBlock] ends on every text
    ([length text + 1] searches per pattern are enough) and the format of
    each character follows the order of the passes, the later pass winning:
    a character inside a match of the value pattern gets the value format;
    otherwise inside a comment match, the comment format; otherwise inside
    an attribute match, the attribute format; otherwise inside a match of
    one of the keyword patterns, the keyword format, also where a captured
    element name covers it; otherwise inside a captured element name, the
    element format; every other character keeps its format. *)
Theorem highlightBlock_precedence
    (regexp : string → string → nat → option Match)
    (text : string) (formats : list QTextCharFormat) (fuel : nat) :
  well_behaved regexp first_capture _xmlElementRegex text →
  Forall (λ regex, well_behaved regexp whole_match regex text)
    (_xmlKeywordRegexes
     ++ [_xmlAttributeRegex; _xmlCommentRegex; _xmlValueRegex]) →
  (String.length text < fuel)%nat →
  ∃ elements keywords attributes comments values formats',
    scan regexp first_capture fuel _xmlElementRegex text 0 = Some elements
    ∧ Forall2 (λ regex ranges,
                 scan regexp whole_match fuel regex text 0 = Some ranges)
        _xmlKeywordRegexes keywords
    ∧ scan regexp whole_match fuel _xmlAttributeRegex text 0 = Some attributes
    ∧ scan regexp whole_match fuel _xmlCommentRegex text 0 = Some comments
    ∧ scan regexp whole_match fuel _xmlValueRegex text 0 = Some values
    ∧ highlightBlock regexp fuel text formats = Some formats'
    ∧ length formats' = length formats
    ∧ ∀ i,
        formats' !! i
        = (λ f,
             if covered values i then _xmlValueFormat
             else if covered comments i then _xmlCommentFormat
             else if covered attributes i then _xmlAttributeFormat
             else if covered (concat keywords) i then _xmlKeywordFormat
             else if covered elements i then _xmlElementFormat
             else f) <$> formats !! i.
Proof.
  intros Hel Hall Hfuel.
  apply Forall_app in Hall as [Hkw Hrest].
  apply Forall_cons_1 in Hrest as [Hat Hrest].
  apply Forall_cons_1 in Hrest as [Hco Hrest].
  apply Forall_cons_1 in Hrest as [Hva _].
  destruct (scan_terminates regexp first_capture _ text fuel 0 Hel)
    as (elements & Hels & _); [lia|].
  destruct (scan_all_terminate regexp fuel _ text Hkw Hfuel)
    as (keywords & Hkws).
  destruct (scan_terminates regexp whole_match _ text fuel 0 Hat)
    as (attributes & Hats & _); [lia|].
  destruct (scan_terminates regexp whole_match _ text fuel 0 Hco)
    as (comments & Hcos & _); [lia|].
  destruct (scan_terminates regexp whole_match _ text fuel 0 Hva)
    as (values & Hvas & _); [lia|].
  exists elements, keywords, attributes, comments, values. eexists.
  split_and!; [done|done|done|done|done| | |].
  - unfold highlightBlock, highlightByRegex.
    rewrite highlight_loop_scan, Hels.
    cbn [fmap option_fmap option_map mbind option_bind].
    rewrite (highlightKeywords_scan regexp fuel _ text keywords) by done.
    cbn [mbind option_bind]. rewrite highlight_loop_scan, Hats.
    cbn [fmap option_fmap option_map mbind option_bind].
    rewrite highlight_loop_scan, Hcos.
    cbn [fmap option_fmap option_map mbind option_bind].
    rewrite highlight_loop_scan, Hvas.
    cbn [fmap option_fmap option_map]. reflexivity.
  - by rewrite !length_setFormat_ranges.
  - intros i. rewrite !lookup_setFormat_ranges.
    by destruct (formats !! i) as [f|].
Qed.

Lemma example_engine_well_behaved (part : Match → nat * nat)
    (regex : string) :
  (part = first_capture ∧ regex = _xmlElementRegex)
  ∨ (part = whole_match
     ∧ regex ∈ _xmlKeywordRegexes
               ++ [_xmlAttributeRegex; _xmlCommentRegex; _xmlValueRegex]) →
  well_behaved example_engine part regex example_text.
Proof.
  intros Hcase offset m. unfold example_engine.
  rewrite String.eqb_refl. intros Hfind.
  apply List.find_some in Hfind as [Hin Hoff]. apply Nat.leb_le in Hoff.
  change (String.length example_text) with 16%nat.
  destruct Hcase as [[-> ->] | [-> Hregex]].
  - vm_compute in Hin. destruct Hin as [<-|[]]. cbn in *. lia.
  - repeat (apply elem_of_cons in Hregex as [->|Hregex]);
      [..|by apply elem_of_nil in Hregex];
      vm_compute in Hin;
      repeat (destruct Hin as [<-|Hin]; [cbn in *; lia|]);
      destruct Hin.
Qed.

Lemma highlightBlock_precedence_witness :
  ∃ formats',
    highlightBlock example_engine 17 example_text
      (replicate 16 QTextCharFormat_default)
    = Some formats'
    ∧ scan example_engine first_capture 17 _xmlElementRegex example_text 0
      = Some [(1, 1)]%nat
    ∧ scan example_engine whole_match 17 "/>" example_text 0
      = Some [(1, 2)]%nat
    ∧ scan example_engine whole_match 17 "<" example_text 0
      = Some [(0, 1); (3, 1)]%nat
    ∧ scan example_engine whole_match 17 _xmlAttributeRegex example_text 0
      = Some [(7, 1)]%nat
    ∧ scan example_engine whole_match 17 _xmlCommentRegex example_text 0
      = Some [(3, 13)]%nat
    ∧ scan example_engine whole_match 17 _xmlValueRegex example_text 0
      = Some [(9, 3)]%nat
    ∧ formats'
      = [ _xmlKeywordFormat; _xmlKeywordFormat; _xmlKeywordFormat;
          _xmlCommentFormat; _xmlCommentFormat; _xmlCommentFormat;
          _xmlCommentFormat; _xmlCommentFormat; _xmlCommentFormat;
          _xmlValueFormat; _xmlValueFormat; _xmlValueFormat;
          _xmlCommentFormat; _xmlCommentFormat; _xmlCommentFormat;
          _xmlCommentFormat ].
Proof.
  destruct (highlightBlock_precedence example_engine example_text
              (replicate 16 QTextCharFormat_default) 17)
    as (elements & keywords & attributes & comments & values & formats'
        & _ & _ & _ & _ & _ & Hrun & _).
  - apply example_engine_well_behaved. by left.
  - apply list.Forall_forall. intros regex Hregex.
    apply example_engine_well_behaved. by right.
  - change (String.length example_text) with 16%nat. lia.
  - exists formats'. split; [exact Hrun|].
    split_and!; [reflexivity..|].
    vm_compute in Hrun. injection Hrun as <-. reflexivity.
Defined.

(** What the example engine makes of [<a>]: the two brackets are keywords,
    the name keeps the default format. *)
Example highlightBlock_brackets :
  highlightBlock char_engine 4 "<a>" (replicate 3 QTextCharFormat_default)
  = Some [_xmlKeywordFormat; QTextCharFormat_default; _xmlKeywordFormat].
Proof. reflexivity. Qed.

(** X19. [highlightByRegex] does not end when the engine reports an empty
    match: the next search starts where the match was found, finds it
    again, and the loop never advances. No number of iterations reaches the
    end of the loop. *)
Theorem highlightByRegex_empty_match
    (regexp : string → string → nat → option Match)
    (format : QTextCharFormat) (regex text : string) (m : Match)
    (formats : list QTextCharFormat) (fuel : nat) :
  regexp regex text 0%nat = Some m →
  regexp regex text (m_index m) = Some m →
  m_matchedLength m = 0%nat →
  highlightByRegex regexp fuel format regex text formats = None.
Proof.
  intros Hfirst Hagain Hempty. unfold highlightByRegex.
  destruct fuel as [|fuel]; [done|]. cbn. rewrite Hfirst. cbn.
  rewrite Hempty, Nat.add_0_r.
  generalize (setFormat (m_index m) 0 format formats). clear formats.
  induction fuel as [|fuel IH]; intros formats; [done|]. cbn.
  rewrite Hagain. cbn. rewrite Hempty, Nat.add_0_r. apply IH.
Qed.

Lemma highlightByRegex_empty_match_witness :
  highlightByRegex (λ regex text offset, Some (mkMatch offset 0 offset 0))
    1000 _xmlCommentFormat "a*" "<bb>" (replicate 4 QTextCharFormat_default)
  = None.
Proof.
  apply (highlightByRegex_empty_match
           (λ regex text offset, Some (mkMatch offset 0 offset 0))
           _xmlCommentFormat "a*" "<bb>" (mkMatch 0 0 0 0));
    reflexivity.
Defined.
